(** * HR Comparator backend: metrics helpers and MongoDB connection options

    A shallow embedding of [metrics.py] (the Prometheus instruments and the
    [track_*] / [update_*] helper functions) and of the connection-option
    selection of [database.py], with the properties the specification
    states about them. *)

From Stdlib Require Import QArith.
From stdpp Require Import gmap strings list fin_maps.

Local Open Scope string_scope.
Local Open Scope Z_scope.

(** ** Python exceptions as an error monad *)

Inductive exn : Type :=
  | ValueError (msg : string).

Inductive result (A : Type) : Type :=
  | Ok (a : A)
  | Raise (e : exn).
Arguments Ok {A} a.
Arguments Raise {A} e.

Definition rbind {A B} (m : result A) (f : A → result B) : result B :=
  match m with
  | Ok a => f a
  | Raise e => Raise e
  end.

Notation "'let*' x := m 'in' k" := (rbind m (fun x => k))
  (at level 10, x name, m at level 100, k at level 200).

(** ** The instruments of [prometheus_client] used by [metrics.py]

    [metrics.py] only declares instruments and calls [labels], [inc],
    [dec], [set] and [observe] on them.  The module below gives these
    calls their library meaning on an explicit store: one series per tuple
    of label values, the unlabelled series being the empty tuple.  The
    library keeps every value in a binary64 float.  The cells of counters
    and gauges only ever hold integers (the helpers add or subtract 1 or
    store an [int]), so they are integers here; [Gauge.set] stores its
    argument converted to a float, which rounds integers of more than 53
    significant bits ([float_of_int]).  Observed durations and scores are
    rationals, and the sum of a histogram is their exact sum. *)

Module Prom.

(** [labels] called with keyword arguments: the keyword names must be
    the declared label names up to order; the series key lists the
    values in declaration order. *)
Definition labels (labelnames : list string) (labelkwargs : gmap string string)
  : result (list string) :=
  match labelnames with
  | [] => Raise (ValueError "No label names were set when constructing")
  | _ =>
    if decide ((map_to_list labelkwargs).*1 ≡ₚ labelnames)
    then Ok ((λ l, default "" (labelkwargs !! l)) <$> labelnames)
    else Raise (ValueError "Incorrect label names")
  end.

(** An update made on the instrument itself (no [labels] call) is only
    allowed when the instrument was declared without label names. *)
Definition unlabelled (labelnames : list string) : result (list string) :=
  match labelnames with
  | [] => Ok []
  | _ => Raise (ValueError "metric is missing label values")
  end.

(** Value of a series; a series that was never touched reads 0. *)
Definition value (s : gmap (list string) Z) (k : list string) : Z :=
  default 0 (s !! k).

(** [Counter.inc(amount)] on the series [k]. *)
Definition counter_inc (amount : Z) (k : list string) (s : gmap (list string) Z)
  : result (gmap (list string) Z) :=
  if amount <? 0
  then Raise (ValueError "Counters can only be incremented by non-negative amounts.")
  else Ok (<[k := value s k + amount]> s).

(** The integer held by the float [float(z)] for an [int] [z]: [z] rounded
    to 53 significant bits, to nearest, ties to the even significand.
    Integers too large for a binary64 float (magnitude 2^1024 and above
    after rounding), for which the conversion raises [OverflowError], are
    not counts the helpers are meant for and are outside this model. *)
Definition float_of_int (z : Z) : Z :=
  let a := Z.abs z in
  let e := Z.log2 a + 1 - 53 in
  if e <=? 0 then z
  else
    let m := Z.shiftr a e in
    let r := Z.land a (Z.ones e) in
    let half := Z.shiftl 1 (e - 1) in
    let m' := if (half <? r) || ((r =? half) && Z.odd m) then m + 1 else m in
    Z.sgn z * Z.shiftl m' e.

(** The integers that a binary64 float holds exactly. *)
Definition representable (z : Z) : Prop :=
  float_of_int z = z ∧ Z.abs z < 2 ^ 1024.

(** [Gauge.inc(amount)], [Gauge.dec(amount)] and [Gauge.set(value)]. *)
Definition gauge_inc (amount : Z) (k : list string) (s : gmap (list string) Z)
  : gmap (list string) Z :=
  <[k := value s k + amount]> s.

Definition gauge_dec (amount : Z) (k : list string) (s : gmap (list string) Z)
  : gmap (list string) Z :=
  <[k := value s k - amount]> s.

Definition gauge_set (v : Z) (k : list string) (s : gmap (list string) Z)
  : gmap (list string) Z :=
  <[k := float_of_int v]> s.

(** Histograms.  The upper bounds are the declared buckets followed by
    +Inf; each series keeps the running sum and one (non-cumulative)
    count per upper bound.  The library adds the amounts up in a float,
    in the order of the calls; [h_sum] is their exact sum, so it says
    nothing about the rounding of that float. *)
Inductive bound : Type :=
  | Fin (q : Q)
  | Inf.

Definition upper_bounds (buckets : list Q) : list bound :=
  (Fin <$> buckets) ++ [Inf].

Definition le_bound (amount : Q) (b : bound) : bool :=
  match b with
  | Fin q => Qle_bool amount q
  | Inf => true
  end.

Record hist : Type := mk_hist {
  h_sum : Q;
  h_buckets : list nat
}.

Definition hist_zero (ub : list bound) : hist :=
  {| h_sum := 0%Q; h_buckets := replicate (length ub) 0%nat |}.

Definition hist_of (ub : list bound) (s : gmap (list string) hist)
  (k : list string) : hist :=
  default (hist_zero ub) (s !! k).

(** The loop of [observe]: the index of the first upper bound that is
    not below the amount, if there is one. *)
Fixpoint first_bucket (ub : list bound) (amount : Q) : option nat :=
  match ub with
  | [] => None
  | b :: ub' =>
    if le_bound amount b then Some 0%nat
    else S <$> first_bucket ub' amount
  end.

Definition bump (i : nat) (bs : list nat) : list nat :=
  alter S i bs.

(** [Histogram.observe(amount)] on the series [k]. *)
Definition observe (ub : list bound) (amount : Q) (k : list string)
  (s : gmap (list string) hist) : gmap (list string) hist :=
  let h := hist_of ub s k in
  <[k := {| h_sum := Qplus (h_sum h) amount;
            h_buckets := match first_bucket ub amount with
                         | Some i => bump i (h_buckets h)
                         | None => h_buckets h
                         end |}]> s.

(** Number of observations of a series. *)
Definition sum_buckets (bs : list nat) : nat := foldr Nat.add 0%nat bs.

Definition count (h : hist) : nat := sum_buckets (h_buckets h).

End Prom.

Arguments Prom.float_of_int : simpl never.

(** ** metrics.py: the declared instruments

    Name, label names and (for histograms) bucket boundaries, as written in
    the declarations of [metrics.py]. *)

Record decl : Type := mk_decl {
  d_name : string;
  d_labelnames : list string;
  d_buckets : list Q
}.

Module Decl.

Definition resume_uploads_total : decl :=
  mk_decl "hr_resume_uploads_total" ["status"; "file_type"] [].
Definition resume_parse_duration : decl :=
  mk_decl "hr_resume_parse_duration_seconds" ["file_type"]
    [1#10; 1#2; 1; 2; 5; 10; 30]%Q.
Definition resumes_total : decl :=
  mk_decl "hr_resumes_total" [] [].
Definition jd_created_total : decl :=
  mk_decl "hr_job_descriptions_created_total" ["status"] [].
Definition jd_total : decl :=
  mk_decl "hr_job_descriptions_total" [] [].
Definition matching_requests_total : decl :=
  mk_decl "hr_matching_requests_total" ["status"; "source"] [].
Definition matching_duration : decl :=
  mk_decl "hr_matching_duration_seconds" ["batch_size"]
    [1; 5; 10; 30; 60; 120; 300; 600]%Q.
Definition ai_agent_calls_total : decl :=
  mk_decl "hr_ai_agent_calls_total" ["endpoint"; "status"] [].
Definition ai_agent_latency : decl :=
  mk_decl "hr_ai_agent_latency_seconds" ["endpoint"]
    [1; 5; 10; 30; 60; 120; 300]%Q.
Definition match_scores : decl :=
  mk_decl "hr_match_scores" []
    [10; 20; 30; 40; 50; 60; 70; 80; 90; 100]%Q.
Definition candidates_by_fit : decl :=
  mk_decl "hr_candidates_by_fit_category" ["category"] [].
Definition user_logins_total : decl :=
  mk_decl "hr_user_logins_total" ["status"] [].
Definition active_users : decl :=
  mk_decl "hr_active_users" [] [].
Definition user_registrations_total : decl :=
  mk_decl "hr_user_registrations_total" ["status"] [].
Definition workflows_started_total : decl :=
  mk_decl "hr_workflows_started_total" ["type"] [].
Definition workflows_completed_total : decl :=
  mk_decl "hr_workflows_completed_total" ["status"] [].
Definition workflow_duration : decl :=
  mk_decl "hr_workflow_duration_seconds" ["resume_count"]
    [30; 60; 120; 300; 600; 900; 1800]%Q.
Definition workflow_in_progress : decl :=
  mk_decl "hr_workflows_in_progress" [] [].
Definition file_storage_bytes : decl :=
  mk_decl "hr_file_storage_bytes" ["type"] [].
Definition file_operations_total : decl :=
  mk_decl "hr_file_operations_total" ["operation"; "status"] [].
Definition db_operations_total : decl :=
  mk_decl "hr_db_operations_total" ["collection"; "operation"] [].
Definition db_operation_duration : decl :=
  mk_decl "hr_db_operation_duration_seconds" ["collection"; "operation"]
    [1#1000; 5#1000; 1#100; 25#1000; 5#100; 1#10; 25#100; 1#2; 1]%Q.

End Decl.

(** ** The registry: the state of every instrument of [metrics.py] *)

Record registry : Type := mk_registry {
  app_info : gmap string string;
  resume_uploads_total : gmap (list string) Z;
  resume_parse_duration : gmap (list string) Prom.hist;
  resumes_total : gmap (list string) Z;
  jd_created_total : gmap (list string) Z;
  jd_total : gmap (list string) Z;
  matching_requests_total : gmap (list string) Z;
  matching_duration : gmap (list string) Prom.hist;
  ai_agent_calls_total : gmap (list string) Z;
  ai_agent_latency : gmap (list string) Prom.hist;
  match_scores : gmap (list string) Prom.hist;
  candidates_by_fit : gmap (list string) Z;
  user_logins_total : gmap (list string) Z;
  active_users : gmap (list string) Z;
  user_registrations_total : gmap (list string) Z;
  workflows_started_total : gmap (list string) Z;
  workflows_completed_total : gmap (list string) Z;
  workflow_duration : gmap (list string) Prom.hist;
  workflow_in_progress : gmap (list string) Z;
  file_storage_bytes : gmap (list string) Z;
  file_operations_total : gmap (list string) Z;
  db_operations_total : gmap (list string) Z;
  db_operation_duration : gmap (list string) Prom.hist
}.

(** The registry right after the module is loaded: the info metric is
    set, no series has been touched. *)
Definition fresh : registry :=
  {| app_info := {[ "version" := "1.0.0"; "service" := "backend-api";
                    "environment" := "production" ]};
     resume_uploads_total := ∅;
     resume_parse_duration := ∅;
     resumes_total := ∅;
     jd_created_total := ∅;
     jd_total := ∅;
     matching_requests_total := ∅;
     matching_duration := ∅;
     ai_agent_calls_total := ∅;
     ai_agent_latency := ∅;
     match_scores := ∅;
     candidates_by_fit := ∅;
     user_logins_total := ∅;
     active_users := ∅;
     user_registrations_total := ∅;
     workflows_started_total := ∅;
     workflows_completed_total := ∅;
     workflow_duration := ∅;
     workflow_in_progress := ∅;
     file_storage_bytes := ∅;
     file_operations_total := ∅;
     db_operations_total := ∅;
     db_operation_duration := ∅ |}.

(** Assignments to one instrument of the registry. *)
Definition set_resume_uploads_total (s : gmap (list string) Z) (r : registry) : registry :=
  {| app_info := app_info r;
     resume_uploads_total := s;
     resume_parse_duration := resume_parse_duration r;
     resumes_total := resumes_total r;
     jd_created_total := jd_created_total r;
     jd_total := jd_total r;
     matching_requests_total := matching_requests_total r;
     matching_duration := matching_duration r;
     ai_agent_calls_total := ai_agent_calls_total r;
     ai_agent_latency := ai_agent_latency r;
     match_scores := match_scores r;
     candidates_by_fit := candidates_by_fit r;
     user_logins_total := user_logins_total r;
     active_users := active_users r;
     user_registrations_total := user_registrations_total r;
     workflows_started_total := workflows_started_total r;
     workflows_completed_total := workflows_completed_total r;
     workflow_duration := workflow_duration r;
     workflow_in_progress := workflow_in_progress r;
     file_storage_bytes := file_storage_bytes r;
     file_operations_total := file_operations_total r;
     db_operations_total := db_operations_total r;
     db_operation_duration := db_operation_duration r |}.

Definition set_matching_requests_total (s : gmap (list string) Z) (r : registry) : registry :=
  {| app_info := app_info r;
     resume_uploads_total := resume_uploads_total r;
     resume_parse_duration := resume_parse_duration r;
     resumes_total := resumes_total r;
     jd_created_total := jd_created_total r;
     jd_total := jd_total r;
     matching_requests_total := s;
     matching_duration := matching_duration r;
     ai_agent_calls_total := ai_agent_calls_total r;
     ai_agent_latency := ai_agent_latency r;
     match_scores := match_scores r;
     candidates_by_fit := candidates_by_fit r;
     user_logins_total := user_logins_total r;
     active_users := active_users r;
     user_registrations_total := user_registrations_total r;
     workflows_started_total := workflows_started_total r;
     workflows_completed_total := workflows_completed_total r;
     workflow_duration := workflow_duration r;
     workflow_in_progress := workflow_in_progress r;
     file_storage_bytes := file_storage_bytes r;
     file_operations_total := file_operations_total r;
     db_operations_total := db_operations_total r;
     db_operation_duration := db_operation_duration r |}.

Definition set_ai_agent_calls_total (s : gmap (list string) Z) (r : registry) : registry :=
  {| app_info := app_info r;
     resume_uploads_total := resume_uploads_total r;
     resume_parse_duration := resume_parse_duration r;
     resumes_total := resumes_total r;
     jd_created_total := jd_created_total r;
     jd_total := jd_total r;
     matching_requests_total := matching_requests_total r;
     matching_duration := matching_duration r;
     ai_agent_calls_total := s;
     ai_agent_latency := ai_agent_latency r;
     match_scores := match_scores r;
     candidates_by_fit := candidates_by_fit r;
     user_logins_total := user_logins_total r;
     active_users := active_users r;
     user_registrations_total := user_registrations_total r;
     workflows_started_total := workflows_started_total r;
     workflows_completed_total := workflows_completed_total r;
     workflow_duration := workflow_duration r;
     workflow_in_progress := workflow_in_progress r;
     file_storage_bytes := file_storage_bytes r;
     file_operations_total := file_operations_total r;
     db_operations_total := db_operations_total r;
     db_operation_duration := db_operation_duration r |}.

Definition set_ai_agent_latency (s : gmap (list string) Prom.hist) (r : registry) : registry :=
  {| app_info := app_info r;
     resume_uploads_total := resume_uploads_total r;
     resume_parse_duration := resume_parse_duration r;
     resumes_total := resumes_total r;
     jd_created_total := jd_created_total r;
     jd_total := jd_total r;
     matching_requests_total := matching_requests_total r;
     matching_duration := matching_duration r;
     ai_agent_calls_total := ai_agent_calls_total r;
     ai_agent_latency := s;
     match_scores := match_scores r;
     candidates_by_fit := candidates_by_fit r;
     user_logins_total := user_logins_total r;
     active_users := active_users r;
     user_registrations_total := user_registrations_total r;
     workflows_started_total := workflows_started_total r;
     workflows_completed_total := workflows_completed_total r;
     workflow_duration := workflow_duration r;
     workflow_in_progress := workflow_in_progress r;
     file_storage_bytes := file_storage_bytes r;
     file_operations_total := file_operations_total r;
     db_operations_total := db_operations_total r;
     db_operation_duration := db_operation_duration r |}.

Definition set_match_scores (s : gmap (list string) Prom.hist) (r : registry) : registry :=
  {| app_info := app_info r;
     resume_uploads_total := resume_uploads_total r;
     resume_parse_duration := resume_parse_duration r;
     resumes_total := resumes_total r;
     jd_created_total := jd_created_total r;
     jd_total := jd_total r;
     matching_requests_total := matching_requests_total r;
     matching_duration := matching_duration r;
     ai_agent_calls_total := ai_agent_calls_total r;
     ai_agent_latency := ai_agent_latency r;
     match_scores := s;
     candidates_by_fit := candidates_by_fit r;
     user_logins_total := user_logins_total r;
     active_users := active_users r;
     user_registrations_total := user_registrations_total r;
     workflows_started_total := workflows_started_total r;
     workflows_completed_total := workflows_completed_total r;
     workflow_duration := workflow_duration r;
     workflow_in_progress := workflow_in_progress r;
     file_storage_bytes := file_storage_bytes r;
     file_operations_total := file_operations_total r;
     db_operations_total := db_operations_total r;
     db_operation_duration := db_operation_duration r |}.

Definition set_candidates_by_fit (s : gmap (list string) Z) (r : registry) : registry :=
  {| app_info := app_info r;
     resume_uploads_total := resume_uploads_total r;
     resume_parse_duration := resume_parse_duration r;
     resumes_total := resumes_total r;
     jd_created_total := jd_created_total r;
     jd_total := jd_total r;
     matching_requests_total := matching_requests_total r;
     matching_duration := matching_duration r;
     ai_agent_calls_total := ai_agent_calls_total r;
     ai_agent_latency := ai_agent_latency r;
     match_scores := match_scores r;
     candidates_by_fit := s;
     user_logins_total := user_logins_total r;
     active_users := active_users r;
     user_registrations_total := user_registrations_total r;
     workflows_started_total := workflows_started_total r;
     workflows_completed_total := workflows_completed_total r;
     workflow_duration := workflow_duration r;
     workflow_in_progress := workflow_in_progress r;
     file_storage_bytes := file_storage_bytes r;
     file_operations_total := file_operations_total r;
     db_operations_total := db_operations_total r;
     db_operation_duration := db_operation_duration r |}.

Definition set_user_logins_total (s : gmap (list string) Z) (r : registry) : registry :=
  {| app_info := app_info r;
     resume_uploads_total := resume_uploads_total r;
     resume_parse_duration := resume_parse_duration r;
     resumes_total := resumes_total r;
     jd_created_total := jd_created_total r;
     jd_total := jd_total r;
     matching_requests_total := matching_requests_total r;
     matching_duration := matching_duration r;
     ai_agent_calls_total := ai_agent_calls_total r;
     ai_agent_latency := ai_agent_latency r;
     match_scores := match_scores r;
     candidates_by_fit := candidates_by_fit r;
     user_logins_total := s;
     active_users := active_users r;
     user_registrations_total := user_registrations_total r;
     workflows_started_total := workflows_started_total r;
     workflows_completed_total := workflows_completed_total r;
     workflow_duration := workflow_duration r;
     workflow_in_progress := workflow_in_progress r;
     file_storage_bytes := file_storage_bytes r;
     file_operations_total := file_operations_total r;
     db_operations_total := db_operations_total r;
     db_operation_duration := db_operation_duration r |}.

Definition set_workflows_started_total (s : gmap (list string) Z) (r : registry) : registry :=
  {| app_info := app_info r;
     resume_uploads_total := resume_uploads_total r;
     resume_parse_duration := resume_parse_duration r;
     resumes_total := resumes_total r;
     jd_created_total := jd_created_total r;
     jd_total := jd_total r;
     matching_requests_total := matching_requests_total r;
     matching_duration := matching_duration r;
     ai_agent_calls_total := ai_agent_calls_total r;
     ai_agent_latency := ai_agent_latency r;
     match_scores := match_scores r;
     candidates_by_fit := candidates_by_fit r;
     user_logins_total := user_logins_total r;
     active_users := active_users r;
     user_registrations_total := user_registrations_total r;
     workflows_started_total := s;
     workflows_completed_total := workflows_completed_total r;
     workflow_duration := workflow_duration r;
     workflow_in_progress := workflow_in_progress r;
     file_storage_bytes := file_storage_bytes r;
     file_operations_total := file_operations_total r;
     db_operations_total := db_operations_total r;
     db_operation_duration := db_operation_duration r |}.

Definition set_workflows_completed_total (s : gmap (list string) Z) (r : registry) : registry :=
  {| app_info := app_info r;
     resume_uploads_total := resume_uploads_total r;
     resume_parse_duration := resume_parse_duration r;
     resumes_total := resumes_total r;
     jd_created_total := jd_created_total r;
     jd_total := jd_total r;
     matching_requests_total := matching_requests_total r;
     matching_duration := matching_duration r;
     ai_agent_calls_total := ai_agent_calls_total r;
     ai_agent_latency := ai_agent_latency r;
     match_scores := match_scores r;
     candidates_by_fit := candidates_by_fit r;
     user_logins_total := user_logins_total r;
     active_users := active_users r;
     user_registrations_total := user_registrations_total r;
     workflows_started_total := workflows_started_total r;
     workflows_completed_total := s;
     workflow_duration := workflow_duration r;
     workflow_in_progress := workflow_in_progress r;
     file_storage_bytes := file_storage_bytes r;
     file_operations_total := file_operations_total r;
     db_operations_total := db_operations_total r;
     db_operation_duration := db_operation_duration r |}.

Definition set_workflow_in_progress (s : gmap (list string) Z) (r : registry) : registry :=
  {| app_info := app_info r;
     resume_uploads_total := resume_uploads_total r;
     resume_parse_duration := resume_parse_duration r;
     resumes_total := resumes_total r;
     jd_created_total := jd_created_total r;
     jd_total := jd_total r;
     matching_requests_total := matching_requests_total r;
     matching_duration := matching_duration r;
     ai_agent_calls_total := ai_agent_calls_total r;
     ai_agent_latency := ai_agent_latency r;
     match_scores := match_scores r;
     candidates_by_fit := candidates_by_fit r;
     user_logins_total := user_logins_total r;
     active_users := active_users r;
     user_registrations_total := user_registrations_total r;
     workflows_started_total := workflows_started_total r;
     workflows_completed_total := workflows_completed_total r;
     workflow_duration := workflow_duration r;
     workflow_in_progress := s;
     file_storage_bytes := file_storage_bytes r;
     file_operations_total := file_operations_total r;
     db_operations_total := db_operations_total r;
     db_operation_duration := db_operation_duration r |}.

(** ** metrics.py: the helper functions *)

Definition track_resume_upload (success : bool) (file_type : string)
  (r : registry) : result registry :=
  let status := if success then "success" else "failed" in
  let* k := Prom.labels (d_labelnames Decl.resume_uploads_total)
              {[ "status" := status; "file_type" := file_type ]} in
  let* s := Prom.counter_inc 1 k (resume_uploads_total r) in
  Ok (set_resume_uploads_total s r).

Definition track_matching_request (success : bool) (source : string)
  (r : registry) : result registry :=
  let status := if success then "success" else "failed" in
  let* k := Prom.labels (d_labelnames Decl.matching_requests_total)
              {[ "status" := status; "source" := source ]} in
  let* s := Prom.counter_inc 1 k (matching_requests_total r) in
  Ok (set_matching_requests_total s r).

Definition track_ai_agent_call (endpoint : string) (success : bool)
  (duration : Q) (r : registry) : result registry :=
  let status := if success then "success" else "failed" in
  let* k := Prom.labels (d_labelnames Decl.ai_agent_calls_total)
              {[ "endpoint" := endpoint; "status" := status ]} in
  let* s := Prom.counter_inc 1 k (ai_agent_calls_total r) in
  let r := set_ai_agent_calls_total s r in
  let* k := Prom.labels (d_labelnames Decl.ai_agent_latency)
              {[ "endpoint" := endpoint ]} in
  Ok (set_ai_agent_latency
        (Prom.observe (Prom.upper_bounds (d_buckets Decl.ai_agent_latency))
           duration k (ai_agent_latency r)) r).

Definition track_match_score (score : Q) (r : registry) : result registry :=
  let* k := Prom.unlabelled (d_labelnames Decl.match_scores) in
  Ok (set_match_scores
        (Prom.observe (Prom.upper_bounds (d_buckets Decl.match_scores))
           score k (match_scores r)) r).

Definition update_fit_categories (best_fit partial_fit not_fit : Z)
  (r : registry) : result registry :=
  let* k := Prom.labels (d_labelnames Decl.candidates_by_fit)
              {[ "category" := "Best Fit" ]} in
  let r := set_candidates_by_fit
             (Prom.gauge_set best_fit k (candidates_by_fit r)) r in
  let* k := Prom.labels (d_labelnames Decl.candidates_by_fit)
              {[ "category" := "Partial Fit" ]} in
  let r := set_candidates_by_fit
             (Prom.gauge_set partial_fit k (candidates_by_fit r)) r in
  let* k := Prom.labels (d_labelnames Decl.candidates_by_fit)
              {[ "category" := "Not Fit" ]} in
  Ok (set_candidates_by_fit
        (Prom.gauge_set not_fit k (candidates_by_fit r)) r).

Definition track_user_login (success : bool) (r : registry) : result registry :=
  let status := if success then "success" else "failed" in
  let* k := Prom.labels (d_labelnames Decl.user_logins_total)
              {[ "status" := status ]} in
  let* s := Prom.counter_inc 1 k (user_logins_total r) in
  Ok (set_user_logins_total s r).

Definition track_workflow (started completed : bool)
  (status workflow_type : string) (r : registry) : result registry :=
  let* r :=
    if started then
      let* k := Prom.labels (d_labelnames Decl.workflows_started_total)
                  {[ "type" := workflow_type ]} in
      let* s := Prom.counter_inc 1 k (workflows_started_total r) in
      let r := set_workflows_started_total s r in
      let* k := Prom.unlabelled (d_labelnames Decl.workflow_in_progress) in
      Ok (set_workflow_in_progress
            (Prom.gauge_inc 1 k (workflow_in_progress r)) r)
    else Ok r in
  if completed then
    let* k := Prom.labels (d_labelnames Decl.workflows_completed_total)
                {[ "status" := status ]} in
    let* s := Prom.counter_inc 1 k (workflows_completed_total r) in
    let r := set_workflows_completed_total s r in
    let* k := Prom.unlabelled (d_labelnames Decl.workflow_in_progress) in
    Ok (set_workflow_in_progress
          (Prom.gauge_dec 1 k (workflow_in_progress r)) r)
  else Ok r.

Definition track_workflow_started_default : bool := false.
Definition track_workflow_completed_default : bool := false.
Definition track_workflow_status_default : string := "success".
Definition track_workflow_workflow_type_default : string := "manual".

(** ** Sequences of helper calls *)

Inductive call : Type :=
  | TrackResumeUpload (success : bool) (file_type : string)
  | TrackMatchingRequest (success : bool) (source : string)
  | TrackAIAgentCall (endpoint : string) (success : bool) (duration : Q)
  | TrackMatchScore (score : Q)
  | UpdateFitCategories (best_fit partial_fit not_fit : Z)
  | TrackUserLogin (success : bool)
  | TrackWorkflow (started completed : bool) (status workflow_type : string).

Definition exec (c : call) (r : registry) : result registry :=
  match c with
  | TrackResumeUpload success file_type => track_resume_upload success file_type r
  | TrackMatchingRequest success source => track_matching_request success source r
  | TrackAIAgentCall endpoint success duration =>
      track_ai_agent_call endpoint success duration r
  | TrackMatchScore score => track_match_score score r
  | UpdateFitCategories b p n => update_fit_categories b p n r
  | TrackUserLogin success => track_user_login success r
  | TrackWorkflow started completed status workflow_type =>
      track_workflow started completed status workflow_type r
  end.

Fixpoint exec_all (cs : list call) (r : registry) : result registry :=
  match cs with
  | [] => Ok r
  | c :: cs' => let* r' := exec c r in exec_all cs' r'
  end.

(** Sum of a counter over the series whose key satisfies [P], and over
    all its series. *)
Definition sum_where (P : list string → bool) (s : gmap (list string) Z) : Z :=
  map_fold (λ k v acc, if P k then v + acc else acc) 0 s.

Definition total (s : gmap (list string) Z) : Z :=
  sum_where (λ _, true) s.

(** The series of a counter whose first label value is [v]. *)
Definition first_label_is (v : string) (k : list string) : bool :=
  bool_decide (k !! 0%nat = Some v).

(** Every histogram series has one count per upper bound. *)
Definition hist_ok (d : decl) (s : gmap (list string) Prom.hist) : Prop :=
  map_Forall (λ _ h, length (Prom.h_buckets h)
                     = length (Prom.upper_bounds (d_buckets d))) s.

Definition registry_ok (r : registry) : Prop :=
  hist_ok Decl.resume_parse_duration (resume_parse_duration r) ∧
  hist_ok Decl.matching_duration (matching_duration r) ∧
  hist_ok Decl.ai_agent_latency (ai_agent_latency r) ∧
  hist_ok Decl.match_scores (match_scores r) ∧
  hist_ok Decl.workflow_duration (workflow_duration r) ∧
  hist_ok Decl.db_operation_duration (db_operation_duration r).

(** A sequence of [track_resume_upload] calls, one per (success, file_type). *)
Definition upload_calls (calls : list (bool * string)) : list call :=
  (λ c, TrackResumeUpload c.1 c.2) <$> calls.

(** Number of calls of a sequence that start, resp. complete, a workflow. *)
Definition starts (c : call) : bool :=
  match c with
  | TrackWorkflow started _ _ _ => started
  | _ => false
  end.

Definition completes (c : call) : bool :=
  match c with
  | TrackWorkflow _ completed _ _ => completed
  | _ => false
  end.

Definition b2z (b : bool) : Z := if b then 1 else 0.

Definition count_calls (p : call → bool) (cs : list call) : Z :=
  foldr (λ c n, b2z (p c) + n) 0 cs.

(** The registry after the [started] branch, resp. the [completed]
    branch, of [track_workflow]. *)
Definition workflow_start (workflow_type : string) (r : registry) : registry :=
  set_workflow_in_progress
    (<[[] := Prom.value (workflow_in_progress r) [] + 1]>
       (workflow_in_progress r))
    (set_workflows_started_total
       (<[[workflow_type] :=
            Prom.value (workflows_started_total r) [workflow_type] + 1]>
          (workflows_started_total r)) r).

Definition workflow_complete (status : string) (r : registry) : registry :=
  set_workflow_in_progress
    (<[[] := Prom.value (workflow_in_progress r) [] - 1]>
       (workflow_in_progress r))
    (set_workflows_completed_total
       (<[[status] :=
            Prom.value (workflows_completed_total r) [status] + 1]>
          (workflows_completed_total r)) r).

(** No series of [s] reads more than the same series of [s']. *)
Definition series_le (s s' : gmap (list string) Z) : Prop :=
  ∀ k, Prom.value s k ≤ Prom.value s' k.

(** The ten counters of the registry, compared series by series. *)
Definition counters_le (r r' : registry) : Prop :=
  series_le (resume_uploads_total r) (resume_uploads_total r') ∧
  series_le (jd_created_total r) (jd_created_total r') ∧
  series_le (matching_requests_total r) (matching_requests_total r') ∧
  series_le (ai_agent_calls_total r) (ai_agent_calls_total r') ∧
  series_le (user_logins_total r) (user_logins_total r') ∧
  series_le (user_registrations_total r) (user_registrations_total r') ∧
  series_le (workflows_started_total r) (workflows_started_total r') ∧
  series_le (workflows_completed_total r) (workflows_completed_total r') ∧
  series_le (file_operations_total r) (file_operations_total r') ∧
  series_le (db_operations_total r) (db_operations_total r').

(** A call of [track_workflow] by keyword, any argument possibly left
    out. *)
Definition track_workflow_call (started completed : option bool)
  (status workflow_type : option string) (r : registry) : result registry :=
  track_workflow
    (default track_workflow_started_default started)
    (default track_workflow_completed_default completed)
    (default track_workflow_status_default status)
    (default track_workflow_workflow_type_default workflow_type) r.

(** ** database.py: connection options chosen from the URL *)

Module Database.

(** Values of the keyword arguments handed to the clients. *)
Inductive pyval : Type :=
  | PyInt (n : Z)
  | PyBool (b : bool).

(** [s] begins with [p]. *)
Fixpoint starts_with (p s : string) : bool :=
  match p, s with
  | EmptyString, _ => true
  | String a p', String b s' =>
      if Ascii.eqb a b then starts_with p' s' else false
  | String _ _, EmptyString => false
  end.

(** The test [needle in hay] on strings. *)
Fixpoint substring_in (needle hay : string) : bool :=
  starts_with needle hay ||
  match hay with
  | EmptyString => false
  | String _ hay' => substring_in needle hay'
  end.

Definition MONGODB_URL_default : string := "mongodb://localhost:27017".
Definition DATABASE_NAME_default : string := "pod_1".

Definition FREE_PLAN_RESUME_LIMIT : Z := 100.
Definition MAX_FILE_SIZE_MB : Z := 5.

Definition connection_options (MONGODB_URL : string) : gmap string pyval :=
  if substring_in "mongodb+srv://" MONGODB_URL then
    {[ "serverSelectionTimeoutMS" := PyInt 30000;
       "connectTimeoutMS" := PyInt 20000;
       "socketTimeoutMS" := PyInt 20000;
       "retryWrites" := PyBool true ]}
  else if substring_in "mongodb://" MONGODB_URL
          && substring_in "mongodb.net" MONGODB_URL then
    {[ "tls" := PyBool true;
       "tlsAllowInvalidCertificates" := PyBool false;
       "serverSelectionTimeoutMS" := PyInt 30000;
       "connectTimeoutMS" := PyInt 20000;
       "socketTimeoutMS" := PyInt 20000;
       "retryWrites" := PyBool true ]}
  else ∅.

(** What a client is constructed from: the URL and the keyword
    arguments. *)
Record client_args : Type := mk_client_args {
  host : string;
  kwargs : gmap string pyval
}.

(** [MongoClient(MONGODB_URL, **connection_options)] *)
Definition client (MONGODB_URL : string) : client_args :=
  mk_client_args MONGODB_URL (connection_options MONGODB_URL).

(** [AsyncIOMotorClient(MONGODB_URL, **connection_options)] *)
Definition async_client (MONGODB_URL : string) : client_args :=
  mk_client_args MONGODB_URL (connection_options MONGODB_URL).

End Database.

(** ** Bookkeeping over sequences of calls *)

(** Which helper a call is. *)
Definition is_upload (c : call) : bool :=
  match c with TrackResumeUpload _ _ => true | _ => false end.

Definition is_matching (c : call) : bool :=
  match c with TrackMatchingRequest _ _ => true | _ => false end.

Definition is_ai_call (c : call) : bool :=
  match c with TrackAIAgentCall _ _ _ => true | _ => false end.

Definition is_login (c : call) : bool :=
  match c with TrackUserLogin _ => true | _ => false end.

Definition is_fit_update (c : call) : bool :=
  match c with UpdateFitCategories _ _ _ => true | _ => false end.

Definition is_score (c : call) : bool :=
  match c with TrackMatchScore _ => true | _ => false end.

(** Number of [true] in a list of flags. *)
Definition count_true (bs : list bool) : Z :=
  foldr (λ b n, b2z b + n) 0 bs.

(** For every endpoint, the calls counted under both statuses are as many
    as the latencies observed. *)
Definition calls_match_latency (r : registry) : Prop :=
  ∀ endpoint : string,
    Prom.value (ai_agent_calls_total r) [endpoint; "success"]
    + Prom.value (ai_agent_calls_total r) [endpoint; "failed"]
    = Z.of_nat
        (Prom.count
           (Prom.hist_of (Prom.upper_bounds (d_buckets Decl.ai_agent_latency))
              (ai_agent_latency r) [endpoint])).

(** The instruments that no helper function writes to. *)
Definition same_unwritten (r r' : registry) : Prop :=
  app_info r' = app_info r ∧
  resume_parse_duration r' = resume_parse_duration r ∧
  resumes_total r' = resumes_total r ∧
  jd_created_total r' = jd_created_total r ∧
  jd_total r' = jd_total r ∧
  matching_duration r' = matching_duration r ∧
  active_users r' = active_users r ∧
  user_registrations_total r' = user_registrations_total r ∧
  workflow_duration r' = workflow_duration r ∧
  file_storage_bytes r' = file_storage_bytes r ∧
  file_operations_total r' = file_operations_total r ∧
  db_operations_total r' = db_operations_total r ∧
  db_operation_duration r' = db_operation_duration r.

(** ** Registries up to the sums of the histograms *)

(** A histogram series without its sum: the bucket counts only. *)
Definition forget_sum (h : Prom.hist) : Prom.hist :=
  {| Prom.h_sum := 0%Q; Prom.h_buckets := Prom.h_buckets h |}.

(** The registry with the sum of every histogram series forgotten:
    counters, gauges and bucket counts are kept as they are. *)
Definition forget_sums (r : registry) : registry :=
  {| app_info := app_info r;
     resume_uploads_total := resume_uploads_total r;
     resume_parse_duration := forget_sum <$> resume_parse_duration r;
     resumes_total := resumes_total r;
     jd_created_total := jd_created_total r;
     jd_total := jd_total r;
     matching_requests_total := matching_requests_total r;
     matching_duration := forget_sum <$> matching_duration r;
     ai_agent_calls_total := ai_agent_calls_total r;
     ai_agent_latency := forget_sum <$> ai_agent_latency r;
     match_scores := forget_sum <$> match_scores r;
     candidates_by_fit := candidates_by_fit r;
     user_logins_total := user_logins_total r;
     active_users := active_users r;
     user_registrations_total := user_registrations_total r;
     workflows_started_total := workflows_started_total r;
     workflows_completed_total := workflows_completed_total r;
     workflow_duration := forget_sum <$> workflow_duration r;
     workflow_in_progress := workflow_in_progress r;
     file_storage_bytes := file_storage_bytes r;
     file_operations_total := file_operations_total r;
     db_operations_total := db_operations_total r;
     db_operation_duration := forget_sum <$> db_operation_duration r |}.

Definition rmap {A B} (f : A → B) (m : result A) : result B :=
  match m with
  | Ok a => Ok (f a)
  | Raise e => Raise e
  end.

(** * Properties *)

(** ** Stores *)

Section Stores.
Implicit Types (s : gmap (list string) Z) (k j : list string).

Lemma value_insert s k j v :
  Prom.value (<[k := v]> s) j = if decide (k = j) then v else Prom.value s j.
Proof.
  unfold Prom.value. rewrite lookup_insert. by case_decide.
Qed.

Lemma value_insert_eq s k v : Prom.value (<[k := v]> s) k = v.
Proof. rewrite value_insert. by case_decide. Qed.

Lemma value_insert_ne s k j v :
  k ≠ j → Prom.value (<[k := v]> s) j = Prom.value s j.
Proof. intros. rewrite value_insert. by case_decide. Qed.

Lemma value_empty k : Prom.value ∅ k = 0.
Proof. unfold Prom.value. by rewrite lookup_empty. Qed.

Lemma sum_where_empty P : sum_where P ∅ = 0.
Proof. unfold sum_where. by rewrite map_fold_empty. Qed.

Lemma sum_where_fresh P s k v :
  s !! k = None →
  sum_where P (<[k := v]> s) = (if P k then v else 0) + sum_where P s.
Proof.
  intros Hk. unfold sum_where. rewrite map_fold_insert_L; [|..|done].
  - destruct (P k); lia.
  - intros j1 j2 z1 z2 y _ _ _. destruct (P j1), (P j2); lia.
Qed.

(** Overwriting one series changes the sum by the difference of the new
    and the old value of that series. *)
Lemma sum_where_insert P s k v :
  sum_where P (<[k := v]> s)
  = sum_where P s + (if P k then v - Prom.value s k else 0).
Proof.
  unfold Prom.value. destruct (s !! k) as [w|] eqn:Hk; simpl.
  - rewrite <-(insert_delete_eq s k v).
    rewrite <-(insert_delete_id s k w) at 2 by done.
    rewrite !sum_where_fresh by apply lookup_delete_eq.
    destruct (P k); lia.
  - rewrite sum_where_fresh by done. destruct (P k); lia.
Qed.

Lemma total_insert s k v :
  total (<[k := v]> s) = total s + v - Prom.value s k.
Proof. unfold total. rewrite sum_where_insert. lia. Qed.

End Stores.

(** ** The label lookups of the helpers never raise *)

Section Labels.

Lemma labels_single (name v : string) :
  Prom.labels [name] {[ name := v ]} = Ok [v].
Proof.
  unfold Prom.labels. rewrite map_to_list_singleton. simpl.
  rewrite decide_True by done. by rewrite lookup_singleton_eq.
Qed.

Lemma labels_resume_uploads (status file_type : string) :
  Prom.labels (d_labelnames Decl.resume_uploads_total)
    {[ "status" := status; "file_type" := file_type ]}
  = Ok [status; file_type].
Proof. vm_compute. reflexivity. Qed.

Lemma labels_matching_requests (status source : string) :
  Prom.labels (d_labelnames Decl.matching_requests_total)
    {[ "status" := status; "source" := source ]}
  = Ok [status; source].
Proof. vm_compute. reflexivity. Qed.

Lemma labels_ai_agent_calls (endpoint status : string) :
  Prom.labels (d_labelnames Decl.ai_agent_calls_total)
    {[ "endpoint" := endpoint; "status" := status ]}
  = Ok [endpoint; status].
Proof. vm_compute. reflexivity. Qed.

End Labels.

(** ** What each helper returns *)

Section Helpers.
Implicit Types (r : registry).

Lemma track_resume_upload_eq success file_type r :
  track_resume_upload success file_type r
  = let k := [if success then "success" else "failed"; file_type] in
    Ok (set_resume_uploads_total
          (<[k := Prom.value (resume_uploads_total r) k + 1]>
             (resume_uploads_total r)) r).
Proof.
  unfold track_resume_upload. by rewrite labels_resume_uploads.
Qed.

Lemma track_matching_request_eq success source r :
  track_matching_request success source r
  = let k := [if success then "success" else "failed"; source] in
    Ok (set_matching_requests_total
          (<[k := Prom.value (matching_requests_total r) k + 1]>
             (matching_requests_total r)) r).
Proof.
  unfold track_matching_request. by rewrite labels_matching_requests.
Qed.

Lemma track_ai_agent_call_eq endpoint success duration r :
  track_ai_agent_call endpoint success duration r
  = let k := [endpoint; if success then "success" else "failed"] in
    Ok (set_ai_agent_latency
          (Prom.observe (Prom.upper_bounds (d_buckets Decl.ai_agent_latency))
             duration [endpoint] (ai_agent_latency r))
          (set_ai_agent_calls_total
             (<[k := Prom.value (ai_agent_calls_total r) k + 1]>
                (ai_agent_calls_total r)) r)).
Proof.
  unfold track_ai_agent_call. rewrite labels_ai_agent_calls.
  cbn [rbind Prom.counter_inc Z.ltb Z.compare d_labelnames Decl.ai_agent_latency].
  by rewrite labels_single.
Qed.

Lemma track_match_score_eq score r :
  track_match_score score r
  = Ok (set_match_scores
          (Prom.observe (Prom.upper_bounds (d_buckets Decl.match_scores))
             score [] (match_scores r)) r).
Proof. reflexivity. Qed.

Lemma update_fit_categories_eq best_fit partial_fit not_fit r :
  update_fit_categories best_fit partial_fit not_fit r
  = Ok (set_candidates_by_fit
          (<[["Not Fit"] := Prom.float_of_int not_fit]>
             (<[["Partial Fit"] := Prom.float_of_int partial_fit]>
                (<[["Best Fit"] := Prom.float_of_int best_fit]>
                   (candidates_by_fit r)))) r).
Proof.
  unfold update_fit_categories.
  cbn [d_labelnames Decl.candidates_by_fit]. by rewrite !labels_single.
Qed.

Lemma track_user_login_eq success r :
  track_user_login success r
  = let k := [if success then "success" else "failed"] in
    Ok (set_user_logins_total
          (<[k := Prom.value (user_logins_total r) k + 1]>
             (user_logins_total r)) r).
Proof.
  unfold track_user_login.
  cbn [d_labelnames Decl.user_logins_total]. by rewrite labels_single.
Qed.

Lemma track_workflow_eq started completed status workflow_type r :
  track_workflow started completed status workflow_type r
  = let r1 := if started then workflow_start workflow_type r else r in
    Ok (if completed then workflow_complete status r1 else r1).
Proof.
  unfold track_workflow.
  cbn [d_labelnames Decl.workflows_started_total
       Decl.workflows_completed_total Decl.workflow_in_progress].
  rewrite !labels_single. by destruct started, completed.
Qed.

End Helpers.

(** ** Workflows *)


(** One call moves the in-progress gauge by its two flags. *)
Lemma exec_in_progress (c : call) (r : registry) :
  ∃ r', exec c r = Ok r' ∧
    Prom.value (workflow_in_progress r') []
    = Prom.value (workflow_in_progress r) [] + b2z (starts c) - b2z (completes c).
Proof.
  destruct c as [b ft|b src|ep b d|sc|bf pf nf|b|st co status ty];
    cbn [exec starts completes b2z].
  - rewrite track_resume_upload_eq. eexists; split; [done|]. destruct r; cbn. lia.
  - rewrite track_matching_request_eq. eexists; split; [done|]. destruct r; cbn. lia.
  - rewrite track_ai_agent_call_eq. eexists; split; [done|]. destruct r; cbn. lia.
  - rewrite track_match_score_eq. eexists; split; [done|]. destruct r; cbn. lia.
  - rewrite update_fit_categories_eq. eexists; split; [done|]. destruct r; cbn. lia.
  - rewrite track_user_login_eq. eexists; split; [done|]. destruct r; cbn. lia.
  - rewrite track_workflow_eq. eexists; split; [done|].
    destruct r, st, co; cbn; rewrite ?value_insert_eq; lia.
Qed.

Lemma count_calls_cons (p : call → bool) (c : call) (cs : list call) :
  count_calls p (c :: cs) = b2z (p c) + count_calls p cs.
Proof. reflexivity. Qed.

Lemma exec_all_in_progress (cs : list call) (r : registry) :
  ∃ r', exec_all cs r = Ok r' ∧
    Prom.value (workflow_in_progress r') []
    = Prom.value (workflow_in_progress r) []
      + count_calls starts cs - count_calls completes cs.
Proof.
  revert r. induction cs as [|c cs IH]; intros r.
  - exists r. split; [done|]. cbn. lia.
  - destruct (exec_in_progress c r) as (r1 & Hc & H1).
    destruct (IH r1) as (r' & Hcs & H').
    exists r'. split; [cbn [exec_all]; by rewrite Hc|].
    rewrite !count_calls_cons. lia.
Qed.

(** C2.  Whatever the in-progress gauge reads before, a sequence of helper
    calls with as many [started] flags as [completed] flags runs to the end
    and leaves the gauge at the value it had before the sequence; in
    particular [track_workflow(started=True, workflow_type='manual')]
    followed by [track_workflow(completed=True, status='success')] raises
    the gauge by 1 and then brings it back. *)
Theorem in_progress_returns_to_baseline (cs : list call) (r : registry) :
  count_calls starts cs = count_calls completes cs →
  (∃ r', exec_all cs r = Ok r' ∧
     Prom.value (workflow_in_progress r') []
     = Prom.value (workflow_in_progress r) []) ∧
  (∃ r1 r2,
     track_workflow true track_workflow_completed_default
       track_workflow_status_default "manual" r = Ok r1 ∧
     track_workflow track_workflow_started_default true
       "success" track_workflow_workflow_type_default r1 = Ok r2 ∧
     Prom.value (workflow_in_progress r1) []
     = Prom.value (workflow_in_progress r) [] + 1 ∧
     Prom.value (workflow_in_progress r2) []
     = Prom.value (workflow_in_progress r) []).
Proof.
  intros Hbal. split.
  - destruct (exec_all_in_progress cs r) as (r' & Hcs & H').
    exists r'. split; [done|lia].
  - rewrite track_workflow_eq. eexists _, _. split; [done|].
    rewrite track_workflow_eq. split; [done|].
    destruct r; cbn. rewrite !value_insert_eq. lia.
Qed.

Lemma in_progress_returns_to_baseline_witness :
  let cs := [TrackWorkflow true false "success" "manual";
             TrackUserLogin true;
             TrackWorkflow false true "success" "manual"] in
  count_calls starts cs = count_calls completes cs ∧
  ∃ r', exec_all cs fresh = Ok r' ∧
     Prom.value (workflow_in_progress r') []
     = Prom.value (workflow_in_progress fresh) [].
Proof.
  intros cs. split; [reflexivity|].
  apply (in_progress_returns_to_baseline cs fresh). reflexivity.
Defined.

(** ** Histograms *)

Section Histograms.
Implicit Types (ub : list Prom.bound) (bs : list nat) (amount : Q).

Lemma count_bump i bs :
  (i < length bs)%nat →
  Prom.sum_buckets (Prom.bump i bs) = S (Prom.sum_buckets bs).
Proof.
  unfold Prom.sum_buckets, Prom.bump. revert i.
  induction bs as [|n bs IH]; intros [|i] Hi; cbn in *; try lia.
  rewrite IH; lia.
Qed.

Lemma length_bump i bs : length (Prom.bump i bs) = length bs.
Proof. unfold Prom.bump. apply length_alter. Qed.

(** The loop of [observe] stops at the first bound that covers the
    amount. *)
Lemma first_bucket_covers ub amount i :
  Prom.first_bucket ub amount = Some i →
  ∃ b, ub !! i = Some b ∧ Prom.le_bound amount b = true ∧
    ∀ j b', (j < i)%nat → ub !! j = Some b' → Prom.le_bound amount b' = false.
Proof.
  revert i. induction ub as [|b ub IH]; intros i; cbn; [done|].
  destruct (Prom.le_bound amount b) eqn:Hb.
  - intros [= <-]. exists b. repeat split; [done|]. intros; lia.
  - destruct (Prom.first_bucket ub amount) as [i'|]; cbn; [|done].
    intros [= <-]. destruct (IH i' eq_refl) as (b0 & ? & ? & Hlt).
    exists b0. repeat split; [done..|].
    intros [|j] b' Hj; cbn; [by intros [= <-]|]. apply Hlt. lia.
Qed.

(** With +Inf as last bound the loop always finds a bucket. *)
Lemma first_bucket_total buckets amount :
  ∃ i, Prom.first_bucket (Prom.upper_bounds buckets) amount = Some i ∧
       (i < length (Prom.upper_bounds buckets))%nat.
Proof.
  unfold Prom.upper_bounds.
  induction buckets as [|q buckets (i & Hi & Hlt)]; cbn.
  - exists 0%nat. split; [done|lia].
  - destruct (Qle_bool amount q).
    + exists 0%nat. split; [done|lia].
    + exists (S i). rewrite Hi. split; [done|lia].
Qed.

(** An amount above every declared bucket lands in the +Inf bucket. *)
Lemma first_bucket_overflow buckets amount :
  Forall (λ q, (q < amount)%Q) buckets →
  Prom.first_bucket (Prom.upper_bounds buckets) amount
  = Some (length buckets).
Proof.
  unfold Prom.upper_bounds. induction 1 as [|q buckets Hq _ IH]; cbn; [done|].
  destruct (Qle_bool amount q) eqn:Hle.
  - apply Qle_bool_iff in Hle. by apply Qle_not_lt in Hle.
  - by rewrite IH.
Qed.

Lemma hist_of_length d s k :
  hist_ok d s →
  length (Prom.h_buckets (Prom.hist_of (Prom.upper_bounds (d_buckets d)) s k))
  = length (Prom.upper_bounds (d_buckets d)).
Proof.
  intros Hok. unfold Prom.hist_of.
  destruct (s !! k) as [h|] eqn:Hk; cbn.
  - by apply (Hok k h).
  - apply length_replicate.
Qed.

(** What one observation does to the store of a histogram. *)
Lemma observe_spec d amount k s :
  let ub := Prom.upper_bounds (d_buckets d) in
  let h := Prom.hist_of ub s k in
  let s' := Prom.observe ub amount k s in
  let h' := Prom.hist_of ub s' k in
  hist_ok d s →
  hist_ok d s' ∧
  Prom.count h' = S (Prom.count h) ∧
  Prom.h_sum h' = Qplus (Prom.h_sum h) amount ∧
  (∃ i b n, ub !! i = Some b ∧ Prom.le_bound amount b = true ∧
     (∀ j b', (j < i)%nat → ub !! j = Some b' →
              Prom.le_bound amount b' = false) ∧
     Prom.h_buckets h !! i = Some n ∧
     Prom.h_buckets h' = <[i := S n]> (Prom.h_buckets h)) ∧
  (∀ j, j ≠ k → s' !! j = s !! j).
Proof.
  intros ub h s' h' Hok.
  destruct (first_bucket_total (d_buckets d) amount) as (i & Hi & Hlt).
  pose proof (hist_of_length d s k Hok) as Hlen. fold ub h in Hlen, Hi, Hlt.
  assert (Hh' : h' = {| Prom.h_sum := Qplus (Prom.h_sum h) amount;
                        Prom.h_buckets := Prom.bump i (Prom.h_buckets h) |}).
  { unfold h', s', Prom.hist_of, Prom.observe.
    rewrite lookup_insert_eq. cbn. fold ub. by rewrite Hi. }
  repeat split.
  - unfold s', Prom.observe. apply map_Forall_insert_2; [|done].
    cbn. fold ub h. rewrite Hi, length_bump. done.
  - rewrite Hh'. unfold Prom.count. cbn. apply count_bump. lia.
  - by rewrite Hh'.
  - destruct (first_bucket_covers ub amount i Hi) as (b & Hb & Hle & Hprev).
    destruct (lookup_lt_is_Some_2 (Prom.h_buckets h) i) as [n Hn]; [lia|].
    exists i, b, n. repeat split; [done..|].
    rewrite Hh'. cbn. unfold Prom.bump.
    apply list_eq. intros j. destruct (decide (i = j)) as [<-|Hne].
    + rewrite list_lookup_alter_eq, Hn, list_lookup_insert_eq; [done|].
      by apply lookup_lt_Some in Hn.
    + by rewrite list_lookup_alter_ne, list_lookup_insert_ne.
  - intros j Hj. unfold s', Prom.observe. by rewrite lookup_insert_ne.
Qed.

End Histograms.

(** ** Well-formed registries

    The fresh registry is well formed and every helper call keeps it so:
    the hypothesis [hist_ok] of the statements below holds in every
    registry the helpers can produce. *)

Lemma fresh_registry_ok : registry_ok fresh.
Proof. repeat split; apply map_Forall_empty. Qed.

Lemma exec_registry_ok (c : call) (r : registry) :
  registry_ok r → ∃ r', exec c r = Ok r' ∧ registry_ok r'.
Proof.
  intros (H1 & H2 & H3 & H4 & H5 & H6).
  destruct c as [b ft|b src|ep b d|sc|bf pf nf|b|st co status ty]; cbn [exec].
  - rewrite track_resume_upload_eq. eexists; split; [reflexivity|].
    by destruct r.
  - rewrite track_matching_request_eq. eexists; split; [reflexivity|].
    by destruct r.
  - rewrite track_ai_agent_call_eq. eexists; split; [reflexivity|].
    destruct (observe_spec Decl.ai_agent_latency d [ep] (ai_agent_latency r) H3)
      as [Hok _].
    by destruct r.
  - rewrite track_match_score_eq. eexists; split; [reflexivity|].
    destruct (observe_spec Decl.match_scores sc [] (match_scores r) H4)
      as [Hok _].
    by destruct r.
  - rewrite update_fit_categories_eq. eexists; split; [reflexivity|].
    by destruct r.
  - rewrite track_user_login_eq. eexists; split; [reflexivity|].
    by destruct r.
  - rewrite track_workflow_eq. eexists; split; [reflexivity|].
    by destruct r, st, co.
Qed.

Lemma exec_all_registry_ok (cs : list call) (r : registry) :
  registry_ok r → ∃ r', exec_all cs r = Ok r' ∧ registry_ok r'.
Proof.
  revert r. induction cs as [|c cs IH]; intros r Hok.
  - by exists r.
  - destruct (exec_registry_ok c r Hok) as (r1 & Hc & Hok1).
    destruct (IH r1 Hok1) as (r' & Hcs & Hok').
    exists r'. split; [cbn [exec_all]; by rewrite Hc|done].
Qed.

(** ** AI agent calls *)

(** C3.  A call [track_ai_agent_call endpoint success duration] always
    returns normally and makes both updates: the series
    [(endpoint, status)] of AIAgentCalls, with [status] "success" or
    "failed" after [success], is increased by exactly 1 and every other
    series of that counter keeps its value; the series [(endpoint)] of
    AIAgentLatency receives exactly one observation: its count grows by 1,
    its sum by [duration], and the one bucket whose count grows is the
    first whose upper bound is not below [duration].  Nothing else
    changes.  On a fresh registry the call ("compare-batch", True, 2.5)
    leaves the counter series at 1 and one observation in the bucket with
    bounds 1 < 2.5 <= 5. *)
Theorem track_ai_agent_call_both :
  (∀ (endpoint : string) (success : bool) (duration : Q) (r : registry),
     hist_ok Decl.ai_agent_latency (ai_agent_latency r) →
     ∃ r', track_ai_agent_call endpoint success duration r = Ok r' ∧
       let status := if success then "success" else "failed" in
       let ub := Prom.upper_bounds (d_buckets Decl.ai_agent_latency) in
       let h := Prom.hist_of ub (ai_agent_latency r) [endpoint] in
       let h' := Prom.hist_of ub (ai_agent_latency r') [endpoint] in
       (∀ k, Prom.value (ai_agent_calls_total r') k
             = Prom.value (ai_agent_calls_total r) k
               + b2z (bool_decide (k = [endpoint; status]))) ∧
       Prom.count h' = S (Prom.count h) ∧
       Prom.h_sum h' = Qplus (Prom.h_sum h) duration ∧
       (∃ i b n, ub !! i = Some b ∧ Prom.le_bound duration b = true ∧
          (∀ j b', (j < i)%nat → ub !! j = Some b' →
                   Prom.le_bound duration b' = false) ∧
          Prom.h_buckets h !! i = Some n ∧
          Prom.h_buckets h' = <[i := S n]> (Prom.h_buckets h)) ∧
       (∀ k, k ≠ [endpoint] → ai_agent_latency r' !! k = ai_agent_latency r !! k) ∧
       hist_ok Decl.ai_agent_latency (ai_agent_latency r') ∧
       r' = set_ai_agent_latency (ai_agent_latency r')
              (set_ai_agent_calls_total (ai_agent_calls_total r') r)) ∧
  (∃ r', track_ai_agent_call "compare-batch" true (5#2) fresh = Ok r' ∧
     ai_agent_calls_total r' !! ["compare-batch"; "success"] = Some 1 ∧
     ai_agent_latency r' !! ["compare-batch"]
     = Some {| Prom.h_sum := 5#2;
               Prom.h_buckets := [0; 1; 0; 0; 0; 0; 0; 0]%nat |} ∧
     Prom.upper_bounds (d_buckets Decl.ai_agent_latency)
     = [Prom.Fin 1; Prom.Fin 5; Prom.Fin 10; Prom.Fin 30; Prom.Fin 60;
        Prom.Fin 120; Prom.Fin 300; Prom.Inf]).
Proof.
  split.
  - intros endpoint success duration r Hok.
    rewrite track_ai_agent_call_eq. eexists; split; [reflexivity|].
    destruct (observe_spec Decl.ai_agent_latency duration [endpoint]
                (ai_agent_latency r) Hok) as (Hok' & Hcount & Hsum & Hbucket & Hother).
    destruct r; cbn in *. repeat split; try done.
    intros k. rewrite value_insert.
    case_decide; case_bool_decide; simplify_eq; cbn; lia.
  - rewrite track_ai_agent_call_eq. eexists; split; [reflexivity|].
    repeat split; vm_compute; reflexivity.
Qed.

Lemma track_ai_agent_call_both_witness :
  hist_ok Decl.ai_agent_latency (ai_agent_latency fresh) ∧
  ∃ r', track_ai_agent_call "extract-resume" false (7#2) fresh = Ok r' ∧
    Prom.value (ai_agent_calls_total r') ["extract-resume"; "failed"]
    = Prom.value (ai_agent_calls_total fresh) ["extract-resume"; "failed"] + 1 ∧
    Prom.count (Prom.hist_of (Prom.upper_bounds (d_buckets Decl.ai_agent_latency))
                  (ai_agent_latency r') ["extract-resume"]) = 1%nat.
Proof.
  assert (Hok : hist_ok Decl.ai_agent_latency (ai_agent_latency fresh))
    by apply map_Forall_empty.
  split; [exact Hok|].
  destruct (proj1 track_ai_agent_call_both "extract-resume" false (7#2) fresh Hok)
    as (r' & Hr' & Hval & Hcount & _).
  exists r'. split; [exact Hr'|]. split.
  - rewrite Hval. rewrite bool_decide_eq_true_2 by reflexivity. reflexivity.
  - rewrite Hcount. reflexivity.
Defined.

(** ** Resume uploads *)

Lemma counter_step_sum (P : list string → bool) (s : gmap (list string) Z)
    (k : list string) :
  sum_where P (<[k := Prom.value s k + 1]> s) = sum_where P s + b2z (P k).
Proof. rewrite sum_where_insert. destruct (P k); cbn; lia. Qed.

Lemma track_resume_upload_sum (success : bool) (file_type : string)
    (r : registry) :
  ∃ r', track_resume_upload success file_type r = Ok r' ∧
    ∀ P, sum_where P (resume_uploads_total r')
         = sum_where P (resume_uploads_total r)
           + b2z (P [if success then "success" else "failed"; file_type]).
Proof.
  rewrite track_resume_upload_eq. eexists; split; [reflexivity|].
  intros P. destruct r; cbn [resume_uploads_total set_resume_uploads_total].
  apply counter_step_sum.
Qed.

Lemma first_label_status (success : bool) (file_type : string) :
  b2z (first_label_is "success"
         [if success then "success" else "failed"; file_type])
  + b2z (first_label_is "failed"
           [if success then "success" else "failed"; file_type]) = 1.
Proof. destruct success; vm_compute; reflexivity. Qed.

Lemma upload_calls_sum (calls : list (bool * string)) (r : registry) :
  ∃ r', exec_all (upload_calls calls) r = Ok r' ∧
    total (resume_uploads_total r')
    = total (resume_uploads_total r) + Z.of_nat (length calls) ∧
    sum_where (first_label_is "success") (resume_uploads_total r')
    + sum_where (first_label_is "failed") (resume_uploads_total r')
    = sum_where (first_label_is "success") (resume_uploads_total r)
      + sum_where (first_label_is "failed") (resume_uploads_total r)
      + Z.of_nat (length calls).
Proof.
  revert r. induction calls as [|[b ft] calls IH]; intros r.
  - exists r. split; [reflexivity|]. rewrite length_nil. split; lia.
  - destruct (track_resume_upload_sum b ft r) as (r1 & Hr1 & Hsum).
    destruct (IH r1) as (r' & Hr' & Ht' & Hsf').
    exists r'. split.
    + change (rbind (track_resume_upload b ft r)
                (exec_all (upload_calls calls)) = Ok r').
      rewrite Hr1. exact Hr'.
    + pose proof (first_label_status b ft) as Hst.
      pose proof (Hsum (first_label_is "success")) as Hs.
      pose proof (Hsum (first_label_is "failed")) as Hf.
      pose proof (Hsum (λ _, true)) as Ht.
      unfold total in *. rewrite length_cons.
      change (b2z true) with 1 in Ht. split; lia.
Qed.

(** C4.  One call [track_resume_upload success file_type] returns
    normally and increases exactly one series of ResumeUploads, the one
    labelled [(status, file_type)] with [status] "success" or "failed"
    after [success], by exactly 1; nothing else changes.  After any
    sequence of N such calls the sum of the counter over all its series,
    and likewise the sum over the series with status "success" plus the
    sum over the series with status "failed", has grown by N; from a fresh
    registry both sums equal N. *)
Theorem resume_uploads_complete :
  (∀ (success : bool) (file_type : string) (r : registry),
     ∃ r', track_resume_upload success file_type r = Ok r' ∧
       (∀ k, Prom.value (resume_uploads_total r') k
             = Prom.value (resume_uploads_total r) k
               + b2z (bool_decide
                        (k = [if success then "success" else "failed";
                              file_type]))) ∧
       r' = set_resume_uploads_total (resume_uploads_total r') r) ∧
  (∀ (calls : list (bool * string)) (r : registry),
     ∃ r', exec_all (upload_calls calls) r = Ok r' ∧
       total (resume_uploads_total r')
       = total (resume_uploads_total r) + Z.of_nat (length calls) ∧
       sum_where (first_label_is "success") (resume_uploads_total r')
       + sum_where (first_label_is "failed") (resume_uploads_total r')
       = sum_where (first_label_is "success") (resume_uploads_total r)
         + sum_where (first_label_is "failed") (resume_uploads_total r)
         + Z.of_nat (length calls)) ∧
  (∀ (calls : list (bool * string)),
     ∃ r', exec_all (upload_calls calls) fresh = Ok r' ∧
       total (resume_uploads_total r') = Z.of_nat (length calls) ∧
       sum_where (first_label_is "success") (resume_uploads_total r')
       + sum_where (first_label_is "failed") (resume_uploads_total r')
       = Z.of_nat (length calls)).
Proof.
  split; [|split].
  - intros success file_type r. rewrite track_resume_upload_eq.
    eexists; split; [reflexivity|]. destruct r; cbn. split; [|done].
    intros k. rewrite value_insert.
    case_decide; case_bool_decide; simplify_eq; cbn; lia.
  - apply upload_calls_sum.
  - intros calls.
    destruct (upload_calls_sum calls fresh) as (r' & Hr' & Ht & Hsf).
    exists r'. split; [done|].
    change (resume_uploads_total fresh) with (∅ : gmap (list string) Z) in *.
    unfold total in *. rewrite !sum_where_empty in *. split; lia.
Qed.

(** ** Fit categories *)

Lemma float_of_int_small (z : Z) :
  Z.abs z ≤ 2 ^ 53 → Prom.float_of_int z = z.
Proof.
  intros Hz. unfold Prom.float_of_int.
  destruct (decide (Z.abs z = 2 ^ 53)) as [Heq|Hne].
  - destruct (Z.abs_eq_or_opp z) as [H|H]; rewrite H in Heq.
    + by subst z.
    + assert (z = - 2 ^ 53) as -> by lia. reflexivity.
  - assert (Hlog : Z.log2 (Z.abs z) < 53).
    { destruct (decide (Z.abs z = 0)) as [->|H0]; [reflexivity|].
      apply Z.log2_lt_pow2; lia. }
    cbv zeta. destruct (Z.leb_spec (Z.log2 (Z.abs z) + 1 - 53) 0); [done|lia].
Qed.

Lemma representable_small (z : Z) : Z.abs z ≤ 2 ^ 53 → Prom.representable z.
Proof.
  intros Hz. split; [by apply float_of_int_small|].
  eapply Z.le_lt_trans; [exact Hz|]. reflexivity.
Qed.

(** C5, as amended.  Whatever the CandidatesByFit gauge held before, for
    all integers that a float holds exactly, among them every integer of
    magnitude at most 2^53, [update_fit_categories best_fit partial_fit
    not_fit] returns normally and leaves the series "Best Fit", "Partial
    Fit" and "Not Fit" at exactly [best_fit], [partial_fit] and [not_fit]:
    the new values do not depend on the old ones.  No other series and no
    other instrument changes.  In particular (3, 1, 2) followed by
    (0, 0, 0) leaves all three series at 0. *)
Theorem update_fit_categories_overwrites :
  (∀ (best_fit partial_fit not_fit : Z) (r : registry),
     Prom.representable best_fit →
     Prom.representable partial_fit →
     Prom.representable not_fit →
     ∃ r', update_fit_categories best_fit partial_fit not_fit r = Ok r' ∧
       candidates_by_fit r' !! ["Best Fit"] = Some best_fit ∧
       candidates_by_fit r' !! ["Partial Fit"] = Some partial_fit ∧
       candidates_by_fit r' !! ["Not Fit"] = Some not_fit ∧
       (∀ k, k ≠ ["Best Fit"] → k ≠ ["Partial Fit"] → k ≠ ["Not Fit"] →
             candidates_by_fit r' !! k = candidates_by_fit r !! k) ∧
       r' = set_candidates_by_fit (candidates_by_fit r') r) ∧
  (∀ z : Z, Z.abs z ≤ 2 ^ 53 → Prom.representable z) ∧
  (∀ (r : registry),
     ∃ r1 r2, update_fit_categories 3 1 2 r = Ok r1 ∧
       update_fit_categories 0 0 0 r1 = Ok r2 ∧
       Prom.value (candidates_by_fit r1) ["Best Fit"] = 3 ∧
       Prom.value (candidates_by_fit r1) ["Partial Fit"] = 1 ∧
       Prom.value (candidates_by_fit r1) ["Not Fit"] = 2 ∧
       Prom.value (candidates_by_fit r2) ["Best Fit"] = 0 ∧
       Prom.value (candidates_by_fit r2) ["Partial Fit"] = 0 ∧
       Prom.value (candidates_by_fit r2) ["Not Fit"] = 0).
Proof.
  split; [|split].
  - intros best_fit partial_fit not_fit r [Hb _] [Hp _] [Hn _].
    rewrite update_fit_categories_eq, Hb, Hp, Hn.
    eexists; split; [reflexivity|]. destruct r; cbn.
    repeat split; intros; by simplify_map_eq.
  - apply representable_small.
  - intros r. eexists _, _. rewrite !update_fit_categories_eq.
    split; [reflexivity|]. split; [reflexivity|].
    destruct r; cbn. unfold Prom.value.
    repeat split; by simplify_map_eq.
Qed.

Lemma update_fit_categories_overwrites_witness :
  Prom.representable 40 ∧ Prom.representable (2 ^ 60) ∧
  Prom.representable (-7) ∧
  ∃ r', update_fit_categories 40 (2 ^ 60) (-7) fresh = Ok r' ∧
    candidates_by_fit r' !! ["Best Fit"] = Some 40 ∧
    candidates_by_fit r' !! ["Partial Fit"] = Some (2 ^ 60) ∧
    candidates_by_fit r' !! ["Not Fit"] = Some (-7).
Proof.
  assert (H1 : Prom.representable 40) by (split; reflexivity).
  assert (H2 : Prom.representable (2 ^ 60)) by (split; reflexivity).
  assert (H3 : Prom.representable (-7)) by (split; reflexivity).
  split; [exact H1|]. split; [exact H2|]. split; [exact H3|].
  destruct (proj1 update_fit_categories_overwrites 40 (2 ^ 60) (-7) fresh
              H1 H2 H3) as (r' & Hr' & Hb & Hp & Hn & _).
  exists r'. by repeat split.
Defined.

(** C5 as first stated, for all integers, fails: 2^53 + 1 has 54
    significant bits, and the series "Best Fit" is left at 2^53. *)
Lemma update_fit_categories_rounds :
  ∃ r', update_fit_categories (2 ^ 53 + 1) 0 0 fresh = Ok r' ∧
    candidates_by_fit r' !! ["Best Fit"] = Some (2 ^ 53) ∧
    candidates_by_fit r' !! ["Best Fit"] ≠ Some (2 ^ 53 + 1).
Proof.
  rewrite update_fit_categories_eq. eexists; split; [reflexivity|].
  split; [vm_compute; reflexivity|]. vm_compute. discriminate.
Qed.

(** ** Counters never decrease *)

Lemma series_le_refl (s : gmap (list string) Z) : series_le s s.
Proof. intros k. lia. Qed.

Lemma series_le_trans (s1 s2 s3 : gmap (list string) Z) :
  series_le s1 s2 → series_le s2 s3 → series_le s1 s3.
Proof. intros H12 H23 k. specialize (H12 k). specialize (H23 k). lia. Qed.

Lemma series_le_inc (s : gmap (list string) Z) (k : list string) :
  series_le s (<[k := Prom.value s k + 1]> s).
Proof. intros j. rewrite value_insert. case_decide; simplify_eq; lia. Qed.

Lemma counters_le_refl (r : registry) : counters_le r r.
Proof. repeat split; apply series_le_refl. Qed.

Lemma counters_le_trans (r1 r2 r3 : registry) :
  counters_le r1 r2 → counters_le r2 r3 → counters_le r1 r3.
Proof.
  unfold counters_le. intros H12 H23. destruct_and!.
  repeat split; eapply series_le_trans; eassumption.
Qed.

Create HintDb counters.
#[local] Hint Resolve series_le_refl series_le_inc : counters.

Lemma exec_counters_le (c : call) (r : registry) :
  ∃ r', exec c r = Ok r' ∧ counters_le r r'.
Proof.
  destruct c as [b ft|b src|ep b d|sc|bf pf nf|b|st co status ty]; cbn [exec].
  - rewrite track_resume_upload_eq. eexists; split; [reflexivity|].
    destruct r; repeat split; cbn; auto with counters.
  - rewrite track_matching_request_eq. eexists; split; [reflexivity|].
    destruct r; repeat split; cbn; auto with counters.
  - rewrite track_ai_agent_call_eq. eexists; split; [reflexivity|].
    destruct r; repeat split; cbn; auto with counters.
  - rewrite track_match_score_eq. eexists; split; [reflexivity|].
    destruct r; repeat split; cbn; auto with counters.
  - rewrite update_fit_categories_eq. eexists; split; [reflexivity|].
    destruct r; repeat split; cbn; auto with counters.
  - rewrite track_user_login_eq. eexists; split; [reflexivity|].
    destruct r; repeat split; cbn; auto with counters.
  - rewrite track_workflow_eq. eexists; split; [reflexivity|].
    destruct r, st, co; repeat split; cbn; auto with counters.
Qed.

Lemma exec_all_counters_le (cs : list call) (r : registry) :
  ∃ r', exec_all cs r = Ok r' ∧ counters_le r r'.
Proof.
  revert r. induction cs as [|c cs IH]; intros r.
  - exists r. split; [reflexivity|apply counters_le_refl].
  - destruct (exec_counters_le c r) as (r1 & Hc & Hle1).
    destruct (IH r1) as (r' & Hcs & Hle').
    exists r'. split; [cbn [exec_all]; by rewrite Hc|].
    by eapply counters_le_trans.
Qed.

(** C6.  For every registry and every helper call with any arguments, the
    call returns normally and every series of every counter (ResumeUploads,
    JDCreated, MatchingRequests, AIAgentCalls, UserLogins,
    UserRegistrations, WorkflowsStarted, WorkflowsCompleted,
    FileOperations, DBOperations) reads at least what it read before; the
    same holds after any sequence of helper calls. *)
Theorem counters_monotone :
  (∀ (c : call) (r : registry), ∃ r', exec c r = Ok r' ∧ counters_le r r') ∧
  (∀ (cs : list call) (r : registry),
     ∃ r', exec_all cs r = Ok r' ∧ counters_le r r').
Proof. split; [apply exec_counters_le|apply exec_all_counters_le]. Qed.

(** ** Match scores *)

Lemma bump_lookup (i : nat) (bs : list nat) :
  (i < length bs)%nat →
  ∃ n, bs !! i = Some n ∧ Prom.bump i bs = <[i := S n]> bs.
Proof.
  intros Hi. destruct (lookup_lt_is_Some_2 bs i Hi) as [n Hn].
  exists n. split; [done|]. unfold Prom.bump.
  apply list_eq. intros j. destruct (decide (i = j)) as [<-|Hne].
  - by rewrite list_lookup_alter_eq, Hn, list_lookup_insert_eq.
  - by rewrite list_lookup_alter_ne, list_lookup_insert_ne.
Qed.

Lemma observe_hist_of (ub : list Prom.bound) (amount : Q) (k : list string)
    (s : gmap (list string) Prom.hist) (i : nat) :
  Prom.first_bucket ub amount = Some i →
  Prom.hist_of ub (Prom.observe ub amount k s) k
  = {| Prom.h_sum := Qplus (Prom.h_sum (Prom.hist_of ub s k)) amount;
       Prom.h_buckets := Prom.bump i (Prom.h_buckets (Prom.hist_of ub s k)) |}.
Proof.
  intros Hi. unfold Prom.observe. unfold Prom.hist_of at 1.
  rewrite lookup_insert_eq. cbn. by rewrite Hi.
Qed.

Lemma match_scores_overflow (score : Q) :
  (100 < score)%Q →
  Prom.first_bucket (Prom.upper_bounds (d_buckets Decl.match_scores)) score
  = Some 10%nat.
Proof.
  intros Hs. apply (first_bucket_overflow (d_buckets Decl.match_scores)).
  cbn. repeat constructor;
    (eapply Qle_lt_trans; [|exact Hs]); unfold Qle; cbn; lia.
Qed.

(** C7.  [track_match_score score] returns normally for every rational
    score and every registry, and changes the MatchScores histogram only:
    no range check is made, and the series holds one more observation than
    before, also for scores outside 0..100.  A score above the highest
    declared boundary 100 is counted in the last bucket, the one with
    upper bound +Inf. *)
Theorem track_match_score_total :
  (∀ (score : Q) (r : registry),
     ∃ r', track_match_score score r = Ok r' ∧
       r' = set_match_scores (match_scores r') r) ∧
  (∀ (score : Q) (r : registry),
     hist_ok Decl.match_scores (match_scores r) →
     ∃ r', track_match_score score r = Ok r' ∧
       let ub := Prom.upper_bounds (d_buckets Decl.match_scores) in
       let h := Prom.hist_of ub (match_scores r) [] in
       let h' := Prom.hist_of ub (match_scores r') [] in
       Prom.count h' = S (Prom.count h) ∧
       Prom.h_sum h' = Qplus (Prom.h_sum h) score ∧
       hist_ok Decl.match_scores (match_scores r') ∧
       ((100 < score)%Q →
        ub !! 9%nat = Some (Prom.Fin 100) ∧
        ub !! 10%nat = Some Prom.Inf ∧
        length ub = 11%nat ∧
        ∃ n, Prom.h_buckets h !! 10%nat = Some n ∧
             Prom.h_buckets h' = <[10%nat := S n]> (Prom.h_buckets h))).
Proof.
  split.
  - intros score r. rewrite track_match_score_eq.
    eexists; split; [reflexivity|]. by destruct r.
  - intros score r Hok. rewrite track_match_score_eq.
    eexists; split; [reflexivity|].
    replace (match_scores
               (set_match_scores
                  (Prom.observe (Prom.upper_bounds (d_buckets Decl.match_scores))
                     score [] (match_scores r)) r))
      with (Prom.observe (Prom.upper_bounds (d_buckets Decl.match_scores))
              score [] (match_scores r)) by (by destruct r).
    destruct (observe_spec Decl.match_scores score [] (match_scores r) Hok)
      as (Hok' & Hcount & Hsum & _ & _).
    cbv zeta. split; [exact Hcount|]. split; [exact Hsum|].
    split; [exact Hok'|]. intros Hhi.
    pose proof (hist_of_length Decl.match_scores (match_scores r) [] Hok) as Hlen.
    rewrite (observe_hist_of _ score [] (match_scores r) _
               (match_scores_overflow score Hhi)).
    destruct (bump_lookup 10
                (Prom.h_buckets
                   (Prom.hist_of (Prom.upper_bounds (d_buckets Decl.match_scores))
                      (match_scores r) []))) as (n & Hn & Hbump).
    { rewrite Hlen. cbn. lia. }
    repeat split; try reflexivity. exists n. by split.
Qed.

Lemma track_match_score_total_witness :
  hist_ok Decl.match_scores (match_scores fresh) ∧
  ∃ r', track_match_score 250 fresh = Ok r' ∧
    Prom.count (Prom.hist_of (Prom.upper_bounds (d_buckets Decl.match_scores))
                  (match_scores r') []) = 1%nat ∧
    Prom.h_buckets (Prom.hist_of (Prom.upper_bounds (d_buckets Decl.match_scores))
                      (match_scores r') [])
    = [0; 0; 0; 0; 0; 0; 0; 0; 0; 0; 1]%nat.
Proof.
  assert (Hok : hist_ok Decl.match_scores (match_scores fresh))
    by apply map_Forall_empty.
  split; [exact Hok|].
  destruct (proj2 track_match_score_total 250%Q fresh Hok)
    as (r' & Hr' & Hcount & _ & _ & Hhi).
  destruct (Hhi eq_refl) as (_ & _ & _ & n & Hn & Hb).
  exists r'. split; [exact Hr'|]. split.
  - rewrite Hcount. reflexivity.
  - rewrite Hb. vm_compute in Hn. injection Hn as <-. reflexivity.
Defined.

(** ** Calling [track_workflow] without arguments *)

(** C9.  A call of [track_workflow] that leaves out every argument is
    accepted: both flags then take their default [False], the call returns
    normally and the registry is exactly what it was, so no instrument
    changes.  The same holds whenever both flags are false, whatever the
    status and the type. *)
Theorem track_workflow_no_arguments (r : registry) :
  track_workflow_started_default = false ∧
  track_workflow_completed_default = false ∧
  track_workflow_call None None None None r = Ok r ∧
  (∀ status workflow_type : option string,
     track_workflow_call None None status workflow_type r = Ok r) ∧
  (∀ status workflow_type : string,
     track_workflow false false status workflow_type r = Ok r).
Proof. repeat split. Qed.

(** ** Connection options *)

Section Substrings.
Import Database.

Lemma starts_with_app (p s : string) :
  starts_with p s = true ↔ ∃ post, s = p +:+ post.
Proof.
  revert s. induction p as [|a p IH]; intros s; cbn.
  - split; [intros _; by exists s|done].
  - destruct s as [|b s]; [split; [done|by intros [? ?]]|].
    destruct (Ascii.eqb a b) eqn:Hab.
    + apply Ascii.eqb_eq in Hab as ->. rewrite IH. split.
      * intros [post ->]. by exists post.
      * intros [post [= ->]]. by exists post.
    + apply Ascii.eqb_neq in Hab. split; [done|].
      intros [post [= ? _]]. congruence.
Qed.

(** [substring_in] holds exactly when the needle occurs in the string. *)
Lemma substring_in_app (needle hay : string) :
  substring_in needle hay = true ↔ ∃ pre post, hay = pre +:+ needle +:+ post.
Proof.
  induction hay as [|c hay IH]; cbn [substring_in];
    rewrite orb_true_iff, starts_with_app.
  - split.
    + intros [[post ->]|?]; [|done]. by exists "", post.
    + intros ([|? pre] & post & Heq); [|done]. left. by exists post.
  - rewrite IH. split.
    + intros [[post ->]|(pre & post & ->)].
      * by exists "", post.
      * by exists (String c pre), post.
    + intros ([|c' pre] & post & Heq).
      * left. by exists post.
      * right. injection Heq as -> ->. by exists pre, post.
Qed.

End Substrings.

(** C10.  Both clients are built from the URL and from the same options,
    and the options are a function of the URL alone.  If the URL contains
    "mongodb+srv://" the options are the three timeouts 30000, 20000, 20000
    and retryWrites=True, and neither tls nor tlsAllowInvalidCertificates
    is set.  Otherwise, if the URL contains both "mongodb://" and
    "mongodb.net", the options are these four together with tls=True and
    tlsAllowInvalidCertificates=False.  For every other URL, the default
    URL among them, the options are empty. *)
Theorem connection_options_by_url (MONGODB_URL : string) :
  let opts := Database.connection_options MONGODB_URL in
  Database.client MONGODB_URL = Database.mk_client_args MONGODB_URL opts ∧
  Database.async_client MONGODB_URL = Database.mk_client_args MONGODB_URL opts ∧
  (if Database.substring_in "mongodb+srv://" MONGODB_URL then
     opts !! "serverSelectionTimeoutMS" = Some (Database.PyInt 30000) ∧
     opts !! "connectTimeoutMS" = Some (Database.PyInt 20000) ∧
     opts !! "socketTimeoutMS" = Some (Database.PyInt 20000) ∧
     opts !! "retryWrites" = Some (Database.PyBool true) ∧
     opts !! "tls" = None ∧
     opts !! "tlsAllowInvalidCertificates" = None ∧
     dom opts = {[ "serverSelectionTimeoutMS"; "connectTimeoutMS";
                   "socketTimeoutMS"; "retryWrites" ]}
   else if Database.substring_in "mongodb://" MONGODB_URL
           && Database.substring_in "mongodb.net" MONGODB_URL then
     opts !! "serverSelectionTimeoutMS" = Some (Database.PyInt 30000) ∧
     opts !! "connectTimeoutMS" = Some (Database.PyInt 20000) ∧
     opts !! "socketTimeoutMS" = Some (Database.PyInt 20000) ∧
     opts !! "retryWrites" = Some (Database.PyBool true) ∧
     opts !! "tls" = Some (Database.PyBool true) ∧
     opts !! "tlsAllowInvalidCertificates" = Some (Database.PyBool false) ∧
     dom opts = {[ "tls"; "tlsAllowInvalidCertificates";
                   "serverSelectionTimeoutMS"; "connectTimeoutMS";
                   "socketTimeoutMS"; "retryWrites" ]}
   else opts = ∅) ∧
  Database.connection_options Database.MONGODB_URL_default = ∅ ∧
  Database.substring_in "mongodb+srv://"
    "mongodb+srv://user:pw@cluster0.abcde.mongodb.net/pod_1" = true ∧
  Database.substring_in "mongodb+srv://"
    "mongodb://shard0.abcde.mongodb.net:27017/pod_1" = false ∧
  Database.substring_in "mongodb://"
    "mongodb://shard0.abcde.mongodb.net:27017/pod_1"
  && Database.substring_in "mongodb.net"
       "mongodb://shard0.abcde.mongodb.net:27017/pod_1" = true.
Proof.
  cbv zeta. split; [reflexivity|]. split; [reflexivity|]. split.
  - unfold Database.connection_options.
    destruct (Database.substring_in "mongodb+srv://" MONGODB_URL).
    + repeat split; vm_compute; reflexivity.
    + destruct (Database.substring_in "mongodb://" MONGODB_URL
                && Database.substring_in "mongodb.net" MONGODB_URL);
        [|reflexivity].
      repeat split; vm_compute; reflexivity.
  - repeat split; vm_compute; reflexivity.
Qed.


(** * Further properties of the helpers *)

(** ** Matching requests *)



(** ** User logins *)

Lemma count_true_cons (b : bool) (bs : list bool) :
  count_true (b :: bs) = b2z b + count_true bs.
Proof. reflexivity. Qed.

Lemma count_true_bounds (bs : list bool) :
  0 ≤ count_true bs ≤ Z.of_nat (length bs).
Proof.
  induction bs as [|b bs IH]; [cbn; lia|].
  rewrite count_true_cons, length_cons. destruct b; cbn [b2z]; lia.
Qed.

Lemma track_user_login_step (success : bool) (r : registry) :
  ∃ r', track_user_login success r = Ok r' ∧
    Prom.value (user_logins_total r') ["success"]
    = Prom.value (user_logins_total r) ["success"] + b2z success ∧
    Prom.value (user_logins_total r') ["failed"]
    = Prom.value (user_logins_total r) ["failed"] + b2z (negb success) ∧
    (∀ k, k ≠ ["success"] → k ≠ ["failed"] →
          user_logins_total r' !! k = user_logins_total r !! k) ∧
    r' = set_user_logins_total (user_logins_total r') r.
Proof.
  rewrite track_user_login_eq. eexists; split; [reflexivity|].
  destruct r, success; cbn; rewrite !value_insert; repeat split;
    try (repeat case_decide; simplify_eq; lia);
    intros; by rewrite lookup_insert_ne.
Qed.

Lemma count_true_replicate (n : nat) :
  count_true (replicate n true) = Z.of_nat n.
Proof.
  induction n as [|n IH]; [reflexivity|].
  cbn [replicate]. rewrite count_true_cons, IH. cbn [b2z]. lia.
Qed.

(** X2.  A run of [track_user_login] calls, one per flag of [bs], returns
    normally; the series "success" of UserLogins grows by the number of
    true flags, the series "failed" by the number of false flags, no other
    series of the counter and no other instrument changes. *)
Theorem track_user_login_run (bs : list bool) (r : registry) :
  ∃ r', exec_all (TrackUserLogin <$> bs) r = Ok r' ∧
    Prom.value (user_logins_total r') ["success"]
    = Prom.value (user_logins_total r) ["success"] + count_true bs ∧
    Prom.value (user_logins_total r') ["failed"]
    = Prom.value (user_logins_total r) ["failed"]
      + (Z.of_nat (length bs) - count_true bs) ∧
    (∀ k, k ≠ ["success"] → k ≠ ["failed"] →
          user_logins_total r' !! k = user_logins_total r !! k) ∧
    r' = set_user_logins_total (user_logins_total r') r.
Proof.
  revert r. induction bs as [|b bs IH]; intros r.
  - exists r. split; [reflexivity|]. rewrite length_nil.
    change (count_true []) with 0. repeat split; try lia.
    by destruct r.
  - destruct (track_user_login_step b r) as (r1 & Hr1 & Hs1 & Hf1 & Ho1 & Hfr1).
    destruct (IH r1) as (r' & Hr' & Hs & Hf & Ho & Hfr).
    exists r'. split.
    { change (rbind (track_user_login b r)
                (exec_all (TrackUserLogin <$> bs)) = Ok r').
      by rewrite Hr1. }
    rewrite count_true_cons, length_cons. repeat split.
    + lia.
    + destruct b; cbn [b2z negb] in *; lia.
    + intros k Hk1 Hk2. by rewrite Ho, Ho1.
    + rewrite Hfr, Hfr1. by destruct r.
Qed.

Lemma track_user_login_run_witness :
  ∃ r', exec_all (TrackUserLogin <$> replicate 1000 true) fresh = Ok r' ∧
    Prom.value (user_logins_total r') ["success"] = 1000 ∧
    Prom.value (user_logins_total r') ["failed"] = 0.
Proof.
  destruct (track_user_login_run (replicate 1000 true) fresh)
    as (r' & Hr' & Hs & Hf & _).
  exists r'. split; [exact Hr'|].
  rewrite Hs, Hf, count_true_replicate, length_replicate. split; reflexivity.
Defined.

(** ** Every call is counted once *)

Lemma exec_totals (c : call) (r : registry) :
  ∃ r', exec c r = Ok r' ∧
    total (resume_uploads_total r')
    = total (resume_uploads_total r) + b2z (is_upload c) ∧
    total (matching_requests_total r')
    = total (matching_requests_total r) + b2z (is_matching c) ∧
    total (ai_agent_calls_total r')
    = total (ai_agent_calls_total r) + b2z (is_ai_call c) ∧
    total (user_logins_total r')
    = total (user_logins_total r) + b2z (is_login c) ∧
    total (workflows_started_total r')
    = total (workflows_started_total r) + b2z (starts c) ∧
    total (workflows_completed_total r')
    = total (workflows_completed_total r) + b2z (completes c) ∧
    Prom.value (workflow_in_progress r') []
    = Prom.value (workflow_in_progress r) [] + b2z (starts c) - b2z (completes c).
Proof.
  destruct c as [b ft|b src|ep b d|sc|bf pf nf|b|st co status ty];
    cbn [exec is_upload is_matching is_ai_call is_login starts completes].
  - rewrite track_resume_upload_eq. eexists; split; [reflexivity|].
    destruct r; cbn. rewrite ?total_insert. repeat split; lia.
  - rewrite track_matching_request_eq. eexists; split; [reflexivity|].
    destruct r; cbn. rewrite ?total_insert. repeat split; lia.
  - rewrite track_ai_agent_call_eq. eexists; split; [reflexivity|].
    destruct r; cbn. rewrite ?total_insert. repeat split; lia.
  - rewrite track_match_score_eq. eexists; split; [reflexivity|].
    destruct r; cbn. repeat split; lia.
  - rewrite update_fit_categories_eq. eexists; split; [reflexivity|].
    destruct r; cbn. repeat split; lia.
  - rewrite track_user_login_eq. eexists; split; [reflexivity|].
    destruct r; cbn. rewrite ?total_insert. repeat split; lia.
  - rewrite track_workflow_eq. eexists; split; [reflexivity|].
    destruct r, st, co; cbn; rewrite ?total_insert, ?value_insert_eq;
      repeat split; lia.
Qed.

Lemma exec_all_totals (cs : list call) (r : registry) :
  ∃ r', exec_all cs r = Ok r' ∧
    total (resume_uploads_total r')
    = total (resume_uploads_total r) + count_calls is_upload cs ∧
    total (matching_requests_total r')
    = total (matching_requests_total r) + count_calls is_matching cs ∧
    total (ai_agent_calls_total r')
    = total (ai_agent_calls_total r) + count_calls is_ai_call cs ∧
    total (user_logins_total r')
    = total (user_logins_total r) + count_calls is_login cs ∧
    total (workflows_started_total r')
    = total (workflows_started_total r) + count_calls starts cs ∧
    total (workflows_completed_total r')
    = total (workflows_completed_total r) + count_calls completes cs ∧
    Prom.value (workflow_in_progress r') []
    = Prom.value (workflow_in_progress r) []
      + count_calls starts cs - count_calls completes cs.
Proof.
  revert r. induction cs as [|c cs IH]; intros r.
  - exists r. split; [reflexivity|].
    change (count_calls _ []) with 0. repeat split; lia.
  - destruct (exec_totals c r) as (r1 & Hc & ? & ? & ? & ? & ? & ? & ?).
    destruct (IH r1) as (r' & Hcs & ? & ? & ? & ? & ? & ? & ?).
    exists r'. split; [cbn [exec_all]; by rewrite Hc|].
    rewrite !count_calls_cons. repeat split; lia.
Qed.

(** X3.  Over any sequence of helper calls, in any order and from any
    registry, each counter sum grows by the number of calls of its helper:
    ResumeUploads by the uploads, MatchingRequests by the matching
    requests, AIAgentCalls by the agent calls, UserLogins by the logins,
    WorkflowsStarted by the calls with [started] and WorkflowsCompleted by
    the calls with [completed]; calls of the other helpers add nothing to
    a counter. *)
Theorem every_call_counted_once (cs : list call) (r : registry) :
  ∃ r', exec_all cs r = Ok r' ∧
    total (resume_uploads_total r')
    = total (resume_uploads_total r) + count_calls is_upload cs ∧
    total (matching_requests_total r')
    = total (matching_requests_total r) + count_calls is_matching cs ∧
    total (ai_agent_calls_total r')
    = total (ai_agent_calls_total r) + count_calls is_ai_call cs ∧
    total (user_logins_total r')
    = total (user_logins_total r) + count_calls is_login cs ∧
    total (workflows_started_total r')
    = total (workflows_started_total r) + count_calls starts cs ∧
    total (workflows_completed_total r')
    = total (workflows_completed_total r) + count_calls completes cs.
Proof.
  destruct (exec_all_totals cs r) as (r' & Hr' & ? & ? & ? & ? & ? & ? & _).
  exists r'. by repeat split.
Qed.

(** X4.  Over any sequence of helper calls the in-progress gauge moves by
    the growth of WorkflowsStarted minus the growth of WorkflowsCompleted
    (both summed over their series); from a fresh registry it therefore
    always reads started minus completed, and it is negative when more
    workflows were completed than started. *)
Theorem in_progress_is_started_minus_completed (cs : list call) :
  (∀ r : registry,
     ∃ r', exec_all cs r = Ok r' ∧
       Prom.value (workflow_in_progress r') []
       - Prom.value (workflow_in_progress r) []
       = (total (workflows_started_total r')
          - total (workflows_started_total r))
         - (total (workflows_completed_total r')
            - total (workflows_completed_total r))) ∧
  (∃ r', exec_all cs fresh = Ok r' ∧
     Prom.value (workflow_in_progress r') []
     = total (workflows_started_total r')
       - total (workflows_completed_total r') ∧
     (Prom.value (workflow_in_progress r') [] < 0
      ↔ count_calls starts cs < count_calls completes cs)).
Proof.
  split.
  - intros r.
    destruct (exec_all_totals cs r) as (r' & Hr' & _ & _ & _ & _ & ? & ? & ?).
    exists r'. split; [done|lia].
  - destruct (exec_all_totals cs fresh) as (r' & Hr' & _ & _ & _ & _ & Hs & Hc & Hw).
    exists r'. split; [done|].
    change (workflows_started_total fresh) with (∅ : gmap (list string) Z) in *.
    change (workflows_completed_total fresh) with (∅ : gmap (list string) Z) in *.
    change (workflow_in_progress fresh) with (∅ : gmap (list string) Z) in *.
    unfold total in *. rewrite sum_where_empty in Hs, Hc.
    rewrite value_empty in Hw. split; lia.
Qed.

(** ** Call counts and latency samples stay in step *)

Lemma hist_of_other (ub : list Prom.bound) (s s' : gmap (list string) Prom.hist)
    (k : list string) :
  s' !! k = s !! k → Prom.hist_of ub s' k = Prom.hist_of ub s k.
Proof. unfold Prom.hist_of. by intros ->. Qed.

Lemma exec_calls_match_latency (c : call) (r : registry) :
  hist_ok Decl.ai_agent_latency (ai_agent_latency r) →
  calls_match_latency r →
  ∃ r', exec c r = Ok r' ∧
    hist_ok Decl.ai_agent_latency (ai_agent_latency r') ∧
    calls_match_latency r'.
Proof.
  intros Hok Hinv.
  destruct c as [b ft|b src|ep b d|sc|bf pf nf|b|st co status ty]; cbn [exec].
  - rewrite track_resume_upload_eq. eexists; split; [reflexivity|].
    by destruct r.
  - rewrite track_matching_request_eq. eexists; split; [reflexivity|].
    by destruct r.
  - rewrite track_ai_agent_call_eq. eexists; split; [reflexivity|].
    destruct (observe_spec Decl.ai_agent_latency d [ep] (ai_agent_latency r) Hok)
      as (Hok' & Hcount & _ & _ & Hother).
    unfold calls_match_latency in *. destruct r; cbn in *.
    split; [exact Hok'|]. intros e. specialize (Hinv e).
    rewrite !value_insert. destruct (decide (e = ep)) as [->|Hne].
    + rewrite Hcount. destruct b;
        repeat case_decide; simplify_eq; lia.
    + rewrite (hist_of_other _ _ _ [e]) by (apply Hother; congruence).
      destruct b; repeat case_decide; simplify_eq; lia.
  - rewrite track_match_score_eq. eexists; split; [reflexivity|].
    by destruct r.
  - rewrite update_fit_categories_eq. eexists; split; [reflexivity|].
    by destruct r.
  - rewrite track_user_login_eq. eexists; split; [reflexivity|].
    by destruct r.
  - rewrite track_workflow_eq. eexists; split; [reflexivity|].
    by destruct r, st, co.
Qed.

Lemma fresh_calls_match_latency : calls_match_latency fresh.
Proof. intros e. reflexivity. Qed.

(** X5.  In a registry where, for every endpoint, the AIAgentCalls counted
    under "success" and "failed" together are as many as the observations
    of AIAgentLatency, this is still so after any sequence of helper
    calls: [track_ai_agent_call] never records a call without its latency
    or a latency without its call, and no other helper touches either
    instrument.  The fresh registry is such a registry. *)
Theorem calls_and_latency_in_step (cs : list call) (r : registry) :
  hist_ok Decl.ai_agent_latency (ai_agent_latency r) →
  calls_match_latency r →
  ∃ r', exec_all cs r = Ok r' ∧
    hist_ok Decl.ai_agent_latency (ai_agent_latency r') ∧
    calls_match_latency r'.
Proof.
  revert r. induction cs as [|c cs IH]; intros r Hok Hinv.
  - by exists r.
  - destruct (exec_calls_match_latency c r Hok Hinv) as (r1 & Hc & Hok1 & Hinv1).
    destruct (IH r1 Hok1 Hinv1) as (r' & Hcs & Hok' & Hinv').
    exists r'. split; [cbn [exec_all]; by rewrite Hc|done].
Qed.

Lemma calls_and_latency_in_step_witness :
  let cs := [TrackAIAgentCall "compare-batch" true (5#2);
             TrackUserLogin false;
             TrackAIAgentCall "compare-batch" false 400;
             TrackAIAgentCall "extract-jd" true (1#2)] in
  hist_ok Decl.ai_agent_latency (ai_agent_latency fresh) ∧
  calls_match_latency fresh ∧
  ∃ r', exec_all cs fresh = Ok r' ∧ calls_match_latency r'.
Proof.
  intros cs.
  assert (Hok : hist_ok Decl.ai_agent_latency (ai_agent_latency fresh))
    by apply map_Forall_empty.
  split; [exact Hok|]. split; [exact fresh_calls_match_latency|].
  destruct (calls_and_latency_in_step cs fresh Hok fresh_calls_match_latency)
    as (r' & Hr' & _ & Hinv).
  exists r'. split; [exact Hr'|exact Hinv].
Defined.

(** ** Updating the fit categories twice *)


(** ** Instruments the helpers never write *)

Lemma exec_same_unwritten (c : call) (r : registry) :
  ∃ r', exec c r = Ok r' ∧ same_unwritten r r'.
Proof.
  destruct c as [b ft|b src|ep b d|sc|bf pf nf|b|st co status ty]; cbn [exec].
  - rewrite track_resume_upload_eq. eexists; split; [reflexivity|].
    by destruct r.
  - rewrite track_matching_request_eq. eexists; split; [reflexivity|].
    by destruct r.
  - rewrite track_ai_agent_call_eq. eexists; split; [reflexivity|].
    by destruct r.
  - rewrite track_match_score_eq. eexists; split; [reflexivity|].
    by destruct r.
  - rewrite update_fit_categories_eq. eexists; split; [reflexivity|].
    by destruct r.
  - rewrite track_user_login_eq. eexists; split; [reflexivity|].
    by destruct r.
  - rewrite track_workflow_eq. eexists; split; [reflexivity|].
    by destruct r, st, co.
Qed.

(** X7.  No sequence of helper calls ever writes to the info metric or to
    ResumeParseDuration, ResumesTotal, JDCreated, JDTotal,
    MatchingDuration, ActiveUsers, UserRegistrations, WorkflowDuration,
    FileStorageBytes, FileOperations, DBOperations or DBOperationDuration:
    each keeps the store it had.  Starting from the fresh registry these
    twelve instruments therefore never get a series through the
    helpers. *)
Theorem helpers_leave_unwritten (cs : list call) :
  (∀ r : registry, ∃ r', exec_all cs r = Ok r' ∧ same_unwritten r r') ∧
  (∃ r', exec_all cs fresh = Ok r' ∧
     app_info r' = app_info fresh ∧
     resume_parse_duration r' = ∅ ∧ resumes_total r' = ∅ ∧
     jd_created_total r' = ∅ ∧ jd_total r' = ∅ ∧
     matching_duration r' = ∅ ∧ active_users r' = ∅ ∧
     user_registrations_total r' = ∅ ∧ workflow_duration r' = ∅ ∧
     file_storage_bytes r' = ∅ ∧ file_operations_total r' = ∅ ∧
     db_operations_total r' = ∅ ∧ db_operation_duration r' = ∅).
Proof.
  assert (Hall : ∀ r, ∃ r', exec_all cs r = Ok r' ∧ same_unwritten r r').
  { induction cs as [|c cs IH]; intros r.
    - exists r. by repeat split.
    - destruct (exec_same_unwritten c r) as (r1 & Hc & H1).
      destruct (IH r1) as (r' & Hcs & H').
      exists r'. split; [cbn [exec_all]; by rewrite Hc|].
      unfold same_unwritten in *. destruct_and!. repeat split; congruence. }
  split; [exact Hall|].
  destruct (Hall fresh) as (r' & Hr' & H'). exists r'. split; [done|].
  unfold same_unwritten in H'. destruct_and!. by repeat split.
Qed.

(** ** Which bucket a match score falls in *)

Lemma first_bucket_skip (q : Q) (ub : list Prom.bound) (amount : Q) :
  (q < amount)%Q →
  Prom.first_bucket (Prom.Fin q :: ub) amount
  = S <$> Prom.first_bucket ub amount.
Proof.
  intros Hlt. cbn. destruct (Qle_bool amount q) eqn:Hle; [|done].
  apply Qle_bool_iff in Hle. by apply Qle_not_lt in Hle.
Qed.

Lemma first_bucket_hit (q : Q) (ub : list Prom.bound) (amount : Q) :
  (amount <= q)%Q → Prom.first_bucket (Prom.Fin q :: ub) amount = Some 0%nat.
Proof. intros Hle. cbn. apply Qle_bool_iff in Hle. by rewrite Hle. Qed.

Lemma match_scores_bucket (score : Q) (i : nat) :
  (i < 10)%nat →
  (i = 0%nat ∨ (inject_Z (10 * Z.of_nat i) < score)%Q) →
  (score <= inject_Z (10 * (Z.of_nat i + 1)))%Q →
  Prom.first_bucket (Prom.upper_bounds (d_buckets Decl.match_scores)) score
  = Some i.
Proof.
  intros Hi Hlo Hhi.
  assert (Hlo' : i ≠ 0%nat → (inject_Z (10 * Z.of_nat i) < score)%Q)
    by (intros ?; by destruct Hlo).
  clear Hlo. change (Prom.upper_bounds (d_buckets Decl.match_scores))
    with [Prom.Fin 10; Prom.Fin 20; Prom.Fin 30; Prom.Fin 40; Prom.Fin 50;
          Prom.Fin 60; Prom.Fin 70; Prom.Fin 80; Prom.Fin 90; Prom.Fin 100;
          Prom.Inf].
  do 10 (destruct i as [|i];
         [ try (specialize (Hlo' ltac:(done)));
           repeat (rewrite first_bucket_skip
                     by (eapply Qle_lt_trans; [|exact Hlo'];
                         unfold Qle; cbn; lia));
           by rewrite first_bucket_hit by exact Hhi
         |]).
  lia.
Qed.

(** X8.  The declared boundaries 10, 20, ..., 100 are inclusive upper
    bounds: a score in (10*i, 10*(i+1)] for i = 0..9, and any score not
    above 10 for i = 0, is counted in bucket i of MatchScores and in no
    other bucket; so 10 itself falls in the first bucket and 100 in the
    tenth. *)
Theorem track_match_score_bucket (score : Q) (i : nat) (r : registry) :
  hist_ok Decl.match_scores (match_scores r) →
  (i < 10)%nat →
  (i = 0%nat ∨ (inject_Z (10 * Z.of_nat i) < score)%Q) →
  (score <= inject_Z (10 * (Z.of_nat i + 1)))%Q →
  ∃ r', track_match_score score r = Ok r' ∧
    let ub := Prom.upper_bounds (d_buckets Decl.match_scores) in
    let h := Prom.hist_of ub (match_scores r) [] in
    let h' := Prom.hist_of ub (match_scores r') [] in
    ∃ n, Prom.h_buckets h !! i = Some n ∧
         Prom.h_buckets h' = <[i := S n]> (Prom.h_buckets h).
Proof.
  intros Hok Hi Hlo Hhi. rewrite track_match_score_eq.
  eexists; split; [reflexivity|].
  replace (match_scores
             (set_match_scores
                (Prom.observe (Prom.upper_bounds (d_buckets Decl.match_scores))
                   score [] (match_scores r)) r))
    with (Prom.observe (Prom.upper_bounds (d_buckets Decl.match_scores))
            score [] (match_scores r)) by (by destruct r).
  cbv zeta.
  rewrite (observe_hist_of _ score [] (match_scores r) _
             (match_scores_bucket score i Hi Hlo Hhi)).
  pose proof (hist_of_length Decl.match_scores (match_scores r) [] Hok) as Hlen.
  destruct (bump_lookup i
              (Prom.h_buckets
                 (Prom.hist_of (Prom.upper_bounds (d_buckets Decl.match_scores))
                    (match_scores r) []))) as (n & Hn & Hbump).
  { rewrite Hlen. cbn. lia. }
  exists n. by split.
Qed.

Lemma track_match_score_bucket_witness :
  hist_ok Decl.match_scores (match_scores fresh) ∧
  ∃ r', track_match_score 100 fresh = Ok r' ∧
    Prom.h_buckets (Prom.hist_of (Prom.upper_bounds (d_buckets Decl.match_scores))
                      (match_scores r') [])
    = [0; 0; 0; 0; 0; 0; 0; 0; 0; 1; 0]%nat.
Proof.
  assert (Hok : hist_ok Decl.match_scores (match_scores fresh))
    by apply map_Forall_empty.
  split; [exact Hok|].
  assert (H9 : (9 < 10)%nat) by lia.
  assert (Hlo : 9%nat = 0%nat ∨ (inject_Z (10 * Z.of_nat 9) < 100)%Q)
    by (right; reflexivity).
  assert (Hhi : (100 <= inject_Z (10 * (Z.of_nat 9 + 1)))%Q)
    by (unfold Qle; cbn; lia).
  destruct (track_match_score_bucket 100 9 fresh Hok H9 Hlo Hhi)
    as (r' & Hr' & n & Hn & Hb).
  exists r'. split; [exact Hr'|].
  rewrite Hb. vm_compute in Hn. injection Hn as <-. reflexivity.
Defined.

(** ** TLS in the connection options *)

Lemma substring_in_false (needle hay : string) :
  Database.substring_in needle hay = false
  ↔ ¬ ∃ pre post, hay = pre +:+ needle +:+ post.
Proof. rewrite <-substring_in_app. symmetry. apply not_true_iff_false. Qed.

(** X9.  Whatever the URL, the options never allow invalid certificates:
    tlsAllowInvalidCertificates is either absent or False, and it is set
    exactly when tls is, which then is True.  A URL in which
    "mongodb+srv://" occurs never gets the tls option, even when
    "mongodb://" and "mongodb.net" occur in it as well; tls=True is set
    exactly for the URLs in which "mongodb://" and "mongodb.net" occur and
    "mongodb+srv://" does not.  The options are non-empty exactly when
    retryWrites=True is among them. *)
Theorem connection_options_tls (MONGODB_URL : string) :
  let opts := Database.connection_options MONGODB_URL in
  let occurs (needle : string) :=
    ∃ pre post, MONGODB_URL = pre +:+ needle +:+ post in
  opts !! "tlsAllowInvalidCertificates" ≠ Some (Database.PyBool true) ∧
  (opts !! "tls" = None ∨ opts !! "tls" = Some (Database.PyBool true)) ∧
  (opts !! "tls" = Some (Database.PyBool true)
   ↔ opts !! "tlsAllowInvalidCertificates" = Some (Database.PyBool false)) ∧
  (occurs "mongodb+srv://" →
   opts !! "tls" = None ∧
   opts !! "tlsAllowInvalidCertificates" = None ∧
   opts !! "retryWrites" = Some (Database.PyBool true)) ∧
  (opts !! "tls" = Some (Database.PyBool true)
   ↔ ¬ occurs "mongodb+srv://" ∧ occurs "mongodb://" ∧ occurs "mongodb.net") ∧
  (opts ≠ ∅ ↔ opts !! "retryWrites" = Some (Database.PyBool true)) ∧
  (opts !! "tlsAllowInvalidCertificates" = None
   ∨ opts !! "tlsAllowInvalidCertificates" = Some (Database.PyBool false)).
Proof.
  cbv zeta. unfold Database.connection_options.
  destruct (Database.substring_in "mongodb+srv://" MONGODB_URL) eqn:Hsrv;
    [|destruct (Database.substring_in "mongodb://" MONGODB_URL) eqn:Hstd;
      destruct (Database.substring_in "mongodb.net" MONGODB_URL) eqn:Hnet;
      cbn [andb]];
    repeat match goal with
    | H : Database.substring_in _ _ = true |- _ => apply substring_in_app in H
    | H : Database.substring_in _ _ = false |- _ =>
        apply substring_in_false in H
    end;
    repeat match goal with
    | |- context [@lookup string Database.pyval ?M ?L ?k ?m] =>
        let v := eval vm_compute in (@lookup string Database.pyval M L k m) in
        change (@lookup string Database.pyval M L k m) with v
    end.
  - split; [done|]. split; [by left|]. split; [done|]. split; [done|].
    split; [split; [done|by intros [Hn _]]|].
    split; [split; [done|]|by left]. intros _ Heq.
    apply (f_equal (λ m : gmap string Database.pyval, m !! "retryWrites")) in Heq.
    by vm_compute in Heq.
  - split; [done|]. split; [by right|]. split; [done|].
    split; [by intros ?%Hsrv|]. split; [done|].
    split; [split; [done|]|by right]. intros _ Heq.
    apply (f_equal (λ m : gmap string Database.pyval, m !! "retryWrites")) in Heq.
    by vm_compute in Heq.
  - split; [done|]. split; [by left|]. split; [done|].
    split; [by intros ?%Hsrv|].
    split; [split; [done|by intros (_ & _ & ?%Hnet)]|]. split; [done|by left].
  - split; [done|]. split; [by left|]. split; [done|].
    split; [by intros ?%Hsrv|].
    split; [split; [done|by intros (_ & ?%Hstd & _)]|]. split; [done|by left].
  - split; [done|]. split; [by left|]. split; [done|].
    split; [by intros ?%Hsrv|].
    split; [split; [done|by intros (_ & ?%Hstd & _)]|]. split; [done|by left].
Qed.

Lemma connection_options_tls_witness :
  let url := "mongodb+srv://c0.mongodb.net/?seed=mongodb://c1" in
  (∃ pre post, url = pre +:+ "mongodb+srv://" +:+ post) ∧
  Database.connection_options url !! "tls" = None ∧
  Database.connection_options url !! "tlsAllowInvalidCertificates" = None ∧
  Database.connection_options url !! "retryWrites"
  = Some (Database.PyBool true).
Proof.
  intros url.
  assert (Hocc : ∃ pre post, url = pre +:+ "mongodb+srv://" +:+ post)
    by (exists "", "c0.mongodb.net/?seed=mongodb://c1"; reflexivity).
  split; [exact Hocc|].
  exact (proj1 (proj2 (proj2 (proj2 (connection_options_tls url)))) Hocc).
Defined.


(** ** The order of the calls does not matter *)

Lemma bump_swap (i j : nat) (bs : list nat) :
  Prom.bump i (Prom.bump j bs) = Prom.bump j (Prom.bump i bs).
Proof.
  unfold Prom.bump. apply list_eq. intros l.
  rewrite !list_lookup_alter. repeat case_decide; simplify_eq;
    rewrite ?list_lookup_alter_eq, ?list_lookup_alter_ne by done; done.
Qed.

Lemma hist_of_forget (ub : list Prom.bound) (s : gmap (list string) Prom.hist)
    (k : list string) :
  Prom.hist_of ub (forget_sum <$> s) k = forget_sum (Prom.hist_of ub s k).
Proof.
  unfold Prom.hist_of. rewrite lookup_fmap. by destruct (s !! k).
Qed.

Lemma forget_forget (s : gmap (list string) Prom.hist) :
  forget_sum <$> (forget_sum <$> s) = forget_sum <$> s.
Proof.
  apply map_eq. intros l. rewrite !lookup_fmap. by destruct (s !! l).
Qed.

(** The bucket counts after an observation do not depend on the sums
    before it. *)
Lemma forget_observe (ub : list Prom.bound) (a : Q) (k : list string)
    (s : gmap (list string) Prom.hist) :
  forget_sum <$> Prom.observe ub a k s
  = forget_sum <$> Prom.observe ub a k (forget_sum <$> s).
Proof.
  unfold Prom.observe. rewrite !fmap_insert, hist_of_forget.
  f_equal. apply map_eq. intros l. rewrite !lookup_fmap.
  by destruct (s !! l).
Qed.

(** Two observations leave the same bucket counts in either order. *)
Lemma forget_observe_swap (ub : list Prom.bound) (a b : Q)
    (k j : list string) (s : gmap (list string) Prom.hist) :
  forget_sum <$> Prom.observe ub a k (Prom.observe ub b j s)
  = forget_sum <$> Prom.observe ub b j (Prom.observe ub a k s).
Proof.
  unfold Prom.observe, Prom.hist_of. apply map_eq. intros l.
  rewrite !lookup_fmap. destruct (decide (k = j)) as [->|Hne].
  - rewrite !lookup_insert_eq. cbn. rewrite !lookup_insert.
    case_decide; [|done]. cbn. unfold forget_sum; cbn. do 2 f_equal.
    destruct (Prom.first_bucket ub a), (Prom.first_bucket ub b);
      try done. apply bump_swap.
  - rewrite !(lookup_insert_ne _ j k), !(lookup_insert_ne _ k j) by done.
    rewrite !lookup_insert. repeat case_decide; simplify_eq; done.
Qed.

Lemma registry_eq (r r' : registry) :
  app_info r = app_info r' →
  resume_uploads_total r = resume_uploads_total r' →
  resume_parse_duration r = resume_parse_duration r' →
  resumes_total r = resumes_total r' →
  jd_created_total r = jd_created_total r' →
  jd_total r = jd_total r' →
  matching_requests_total r = matching_requests_total r' →
  matching_duration r = matching_duration r' →
  ai_agent_calls_total r = ai_agent_calls_total r' →
  ai_agent_latency r = ai_agent_latency r' →
  match_scores r = match_scores r' →
  candidates_by_fit r = candidates_by_fit r' →
  user_logins_total r = user_logins_total r' →
  active_users r = active_users r' →
  user_registrations_total r = user_registrations_total r' →
  workflows_started_total r = workflows_started_total r' →
  workflows_completed_total r = workflows_completed_total r' →
  workflow_duration r = workflow_duration r' →
  workflow_in_progress r = workflow_in_progress r' →
  file_storage_bytes r = file_storage_bytes r' →
  file_operations_total r = file_operations_total r' →
  db_operations_total r = db_operations_total r' →
  db_operation_duration r = db_operation_duration r' →
  r = r'.
Proof. destruct r, r'; cbn; intros; by subst. Qed.

Ltac registry_fields :=
  cbn [app_info resume_uploads_total resume_parse_duration resumes_total
       jd_created_total jd_total matching_requests_total matching_duration
       ai_agent_calls_total ai_agent_latency match_scores candidates_by_fit
       user_logins_total active_users user_registrations_total
       workflows_started_total workflows_completed_total workflow_duration
       workflow_in_progress file_storage_bytes file_operations_total
       db_operations_total db_operation_duration
       set_resume_uploads_total set_matching_requests_total
       set_ai_agent_calls_total set_ai_agent_latency set_match_scores
       set_candidates_by_fit set_user_logins_total
       set_workflows_started_total set_workflows_completed_total
       set_workflow_in_progress workflow_start workflow_complete
       forget_sums].

Ltac helper_eqs :=
  cbn [exec];
  rewrite ?track_resume_upload_eq, ?track_matching_request_eq,
    ?track_ai_agent_call_eq, ?track_match_score_eq,
    ?update_fit_categories_eq, ?track_user_login_eq, ?track_workflow_eq;
  cbv zeta; cbn [rbind rmap].

Ltac store_eq :=
  apply map_eq; intros ?; unfold Prom.value;
  repeat (rewrite lookup_insert || case_decide || simplify_eq);
  try done; cbn [default from_option id]; f_equal; lia.

(** What a call leaves, up to the sums, does not depend on the sums it
    found. *)
Lemma exec_forget (c : call) (r : registry) :
  rmap forget_sums (exec c r) = rmap forget_sums (exec c (forget_sums r)).
Proof.
  destruct c as [b ft|b src|ep b d|sc|bf pf nf|b|st co status ty];
    helper_eqs; f_equal; try destruct st, co;
    apply registry_eq; registry_fields;
    try reflexivity; try apply forget_observe;
    try (symmetry; apply forget_forget).
Qed.

Lemma Ok_inj {A} (a b : A) : Ok a = Ok b → a = b.
Proof. intros H. by injection H. Qed.

Lemma exec_all_forget (cs : list call) (r : registry) :
  rmap forget_sums (exec_all cs r)
  = rmap forget_sums (exec_all cs (forget_sums r)).
Proof.
  revert r. induction cs as [|c cs IH]; intros r.
  - cbn. f_equal. apply registry_eq; registry_fields;
      try reflexivity; symmetry; apply forget_forget.
  - cbn [exec_all]. pose proof (exec_forget c r) as Hc.
    destruct (exec_counters_le c r) as (r1 & Hr1 & _).
    destruct (exec_counters_le c (forget_sums r)) as (r2 & Hr2 & _).
    rewrite Hr1, Hr2 in Hc |- *. cbn [rbind rmap] in *.
    apply Ok_inj in Hc. by rewrite (IH r1), (IH r2), Hc.
Qed.

(** Two calls that are not both [update_fit_categories] leave the same
    registry, up to the sums, in either order. *)
Lemma exec_swap (c1 c2 : call) (r : registry) :
  is_fit_update c1 && is_fit_update c2 = false →
  rmap forget_sums (rbind (exec c1 r) (exec c2))
  = rmap forget_sums (rbind (exec c2 r) (exec c1)).
Proof.
  intros Hfit.
  destruct c1 as [b1 ft1|b1 src1|ep1 b1 d1|sc1|bf1 pf1 nf1|b1|st1 co1 status1 ty1],
           c2 as [b2 ft2|b2 src2|ep2 b2 d2|sc2|bf2 pf2 nf2|b2|st2 co2 status2 ty2];
    try discriminate Hfit; clear Hfit;
    helper_eqs; helper_eqs; f_equal;
    try destruct st1, co1; try destruct st2, co2;
    apply registry_eq; registry_fields;
    try reflexivity; try apply forget_observe_swap;
    repeat (match goal with b : bool |- _ => destruct b end); store_eq.
Qed.

Lemma rbind_assoc {A B C} (m : result A) (f : A → result B) (g : B → result C) :
  rbind (rbind m f) g = rbind m (λ a, rbind (f a) g).
Proof. by destruct m. Qed.

Lemma exec_all_permutation (cs cs' : list call) (r : registry) :
  cs ≡ₚ cs' →
  Forall (λ c, is_fit_update c = false) cs →
  rmap forget_sums (exec_all cs r) = rmap forget_sums (exec_all cs' r).
Proof.
  intros Hperm. revert r.
  induction Hperm as [|c cs cs' _ IH|c1 c2 cs|cs1 cs2 cs3 H12 IH12 H23 IH23];
    intros r Hfit.
  - reflexivity.
  - apply Forall_cons in Hfit as [_ Hfit]. cbn [exec_all].
    destruct (exec_counters_le c r) as (r1 & -> & _). cbn [rbind]. by apply IH.
  - apply Forall_cons in Hfit as [H2 _].
    pose proof (exec_swap c2 c1 r) as Hswap.
    rewrite H2 in Hswap. specialize (Hswap eq_refl).
    change (rmap forget_sums
              (rbind (exec c2 r) (λ r1, rbind (exec c1 r1) (exec_all cs)))
            = rmap forget_sums
                (rbind (exec c1 r) (λ r1, rbind (exec c2 r1) (exec_all cs)))).
    rewrite <-!rbind_assoc.
    destruct (exec_all_counters_le [c2; c1] r) as (r21 & H21 & _).
    destruct (exec_all_counters_le [c1; c2] r) as (r12 & H12 & _).
    cbn [exec_all] in H21, H12.
    assert (E21 : rbind (exec c2 r) (exec c1) = Ok r21).
    { rewrite <-H21. destruct (exec c2 r) as [r0|]; cbn; [|done].
      by destruct (exec c1 r0). }
    assert (E12 : rbind (exec c1 r) (exec c2) = Ok r12).
    { rewrite <-H12. destruct (exec c1 r) as [r0|]; cbn; [|done].
      by destruct (exec c2 r0). }
    rewrite E21, E12 in Hswap |- *. cbn [rbind rmap] in *.
    apply Ok_inj in Hswap.
    by rewrite (exec_all_forget cs r21), (exec_all_forget cs r12), Hswap.
  - rewrite IH12 by done. apply IH23. by rewrite <-H12.
Qed.

(** X10.  What a sequence of helper calls leaves in the counters, the
    gauges and the bucket counts of the histograms depends on which calls
    were made, not on their order: two sequences that are permutations of
    each other and contain no [update_fit_categories] call both run to
    the end and leave registries that are equal once the sums of the
    histograms are set aside.  (The sums are added up in the order of the
    calls.) *)
Theorem call_order_irrelevant (cs cs' : list call) (r : registry) :
  cs ≡ₚ cs' →
  Forall (λ c, is_fit_update c = false) cs →
  ∃ r1 r2, exec_all cs r = Ok r1 ∧ exec_all cs' r = Ok r2 ∧
    forget_sums r1 = forget_sums r2.
Proof.
  intros Hperm Hfit.
  pose proof (exec_all_permutation cs cs' r Hperm Hfit) as Heq.
  destruct (exec_all_counters_le cs r) as (r1 & Hr1 & _).
  destruct (exec_all_counters_le cs' r) as (r2 & Hr2 & _).
  rewrite Hr1, Hr2 in Heq. apply Ok_inj in Heq. by exists r1, r2.
Qed.

Lemma call_order_irrelevant_witness :
  let c1 := TrackMatchScore (1#10) in
  let c2 := TrackMatchScore (2#10) in
  let c3 := TrackMatchScore (3#10) in
  let c4 := TrackWorkflow true false "success" "manual" in
  [c1; c2; c3; c4] ≡ₚ [c4; c3; c2; c1] ∧
  Forall (λ c, is_fit_update c = false) [c1; c2; c3; c4] ∧
  ∃ r1 r2, exec_all [c1; c2; c3; c4] fresh = Ok r1 ∧
    exec_all [c4; c3; c2; c1] fresh = Ok r2 ∧
    forget_sums r1 = forget_sums r2.
Proof.
  intros c1 c2 c3 c4.
  assert (Hperm : [c1; c2; c3; c4] ≡ₚ [c4; c3; c2; c1])
    by apply (Permutation_rev [c1; c2; c3; c4]).
  assert (Hfit : Forall (λ c, is_fit_update c = false) [c1; c2; c3; c4])
    by (repeat constructor).
  split; [exact Hperm|]. split; [exact Hfit|].
  exact (call_order_irrelevant _ _ fresh Hperm Hfit).
Defined.

(** ** Match scores are counted *)

Lemma exec_match_scores_count (c : call) (r : registry) :
  hist_ok Decl.match_scores (match_scores r) →
  ∃ r', exec c r = Ok r' ∧
    hist_ok Decl.match_scores (match_scores r') ∧
    Z.of_nat (Prom.count
                (Prom.hist_of (Prom.upper_bounds (d_buckets Decl.match_scores))
                   (match_scores r') []))
    = Z.of_nat (Prom.count
                  (Prom.hist_of (Prom.upper_bounds (d_buckets Decl.match_scores))
                     (match_scores r) []))
      + b2z (is_score c).
Proof.
  intros Hok.
  destruct c as [b ft|b src|ep b d|sc|bf pf nf|b|st co status ty];
    cbn [exec is_score b2z].
  - rewrite track_resume_upload_eq. eexists; split; [reflexivity|].
    destruct r; cbn in *. split; [done|lia].
  - rewrite track_matching_request_eq. eexists; split; [reflexivity|].
    destruct r; cbn in *. split; [done|lia].
  - rewrite track_ai_agent_call_eq. eexists; split; [reflexivity|].
    destruct r; cbn in *. split; [done|lia].
  - rewrite track_match_score_eq. eexists; split; [reflexivity|].
    destruct (observe_spec Decl.match_scores sc [] (match_scores r) Hok)
      as (Hok' & Hcount & _).
    destruct r; cbn in *. split; [done|]. rewrite Hcount. lia.
  - rewrite update_fit_categories_eq. eexists; split; [reflexivity|].
    destruct r; cbn in *. split; [done|lia].
  - rewrite track_user_login_eq. eexists; split; [reflexivity|].
    destruct r; cbn in *. split; [done|lia].
  - rewrite track_workflow_eq. eexists; split; [reflexivity|].
    destruct r, st, co; cbn in *; (split; [done|lia]).
Qed.

(** X11.  Over any sequence of helper calls the number of observations
    held by the MatchScores histogram grows by exactly the number of
    [track_match_score] calls in the sequence, whatever the scores are,
    and the histogram keeps one count per bucket. *)
Theorem match_scores_counted (cs : list call) (r : registry) :
  hist_ok Decl.match_scores (match_scores r) →
  ∃ r', exec_all cs r = Ok r' ∧
    hist_ok Decl.match_scores (match_scores r') ∧
    Z.of_nat (Prom.count
                (Prom.hist_of (Prom.upper_bounds (d_buckets Decl.match_scores))
                   (match_scores r') []))
    = Z.of_nat (Prom.count
                  (Prom.hist_of (Prom.upper_bounds (d_buckets Decl.match_scores))
                     (match_scores r) []))
      + count_calls is_score cs.
Proof.
  revert r. induction cs as [|c cs IH]; intros r Hok.
  - exists r. split; [reflexivity|]. split; [done|].
    change (count_calls is_score []) with 0. lia.
  - destruct (exec_match_scores_count c r Hok) as (r1 & Hc & Hok1 & H1).
    destruct (IH r1 Hok1) as (r' & Hcs & Hok' & H').
    exists r'. split; [cbn [exec_all]; by rewrite Hc|].
    split; [done|]. rewrite count_calls_cons. lia.
Qed.

Lemma match_scores_counted_witness :
  let cs := [TrackMatchScore 87; TrackUserLogin true;
             TrackMatchScore (-3); TrackMatchScore 1000] in
  hist_ok Decl.match_scores (match_scores fresh) ∧
  ∃ r', exec_all cs fresh = Ok r' ∧
    Prom.count
      (Prom.hist_of (Prom.upper_bounds (d_buckets Decl.match_scores))
         (match_scores r') []) = 3%nat.
Proof.
  intros cs.
  assert (Hok : hist_ok Decl.match_scores (match_scores fresh))
    by apply map_Forall_empty.
  split; [exact Hok|].
  destruct (match_scores_counted cs fresh Hok) as (r' & Hr' & _ & Hcount).
  exists r'. split; [exact Hr'|].
  apply Nat2Z.inj. rewrite Hcount. reflexivity.
Defined.
